(** * The audio player slice of quran.com-frontend-next

    A shallow embedding of [src/redux/slices/AudioPlayer/state.ts] (the
    Redux slice, its selectors and its three async thunks) and of
    [src/components/FeedbackWidget/FeedbackWidget.tsx] (the part that reads
    the slice), followed by the properties of the audio playback state
    machine.

    Conventions.
    - Identifiers (reciter ids, chapter ids) are integers, [Z].
    - The timestamp of [playFrom] is a JavaScript number that is divided by
      1000: it is an IEEE 754 binary64 value, a primitive [float] here, and
      [/] is the primitive float division.
    - [null] is [None]: the slice starts with [audioFile: null].
    - An async thunk is a tree of the effects it performs (reading the
      store, dispatching, calling the audio element, awaiting the fetch);
      the effects get their meaning from an interpreter. *)

From Stdlib Require Import ZArith List String.
From Stdlib Require Import Floats.PrimFloat.
Import ListNotations.

Local Open Scope Z_scope.

(** ** Data model *)

(** Modelled from the spec: [types/Reciter] is not part of the sources at
    hand; a reciter is an identifier with display metadata.  The slice only
    reads [id]. *)
Module Reciter.
Record t : Type := Build { id : Z; name : string }.
End Reciter.

(** Modelled from the spec: [types/AudioFile] is not part of the sources at
    hand; an audio file has an identifier, the chapter it belongs to, a
    playable resource locator and a duration.  The slice only reads
    [chapterId]. *)
Module AudioFile.
Record t : Type :=
  Build { id : string; chapterId : Z; audioUrl : string; duration : Z }.
End AudioFile.

Inductive AudioFileStatus : Type :=
| Ready
| Loading
| NoFile.

Definition AudioFileStatus_eqb (a b : AudioFileStatus) : bool :=
  match a, b with
  | Ready, Ready | Loading, Loading | NoFile, NoFile => true
  | _, _ => false
  end.

Record AudioState : Type := mkAudioState {
  isPlaying : bool;
  reciter : Reciter.t;
  audioFile : option AudioFile.t;
  audioFileStatus : AudioFileStatus;
  isMobileMinimizedForScrolling : bool;
  enableAutoScrolling : bool
}.

(** The root state of the store; only the slice at hand is kept. *)
Record RootState : Type := mkRootState { audioPlayerState : AudioState }.

(** The actions the slice reacts to: its seven case reducers and the
    external [resetSettings] action of its [extraReducers]. *)
Inductive Action : Type :=
| setIsPlaying (payload : bool)
| setIsMobileMinimizedForScrolling (payload : bool)
| setReciter (payload : Reciter.t)
| setAudioFile (payload : option AudioFile.t)
| setAudioStatus (payload : AudioFileStatus)
| setEnableAutoScrolling (payload : bool)
| resetAudioFile
| resetSettings.

(** The imperative calls of [src/components/AudioPlayer/EventTriggers]. *)
Inductive TriggerCall : Type :=
| triggerPlayAudio
| triggerPauseAudio
| triggerSetCurrentTime (seconds : float).

Inductive Error : Type :=
| TypeError     (* a property read on [null] *)
| FetchError.   (* the promise of [getChapterAudioFile] rejected *)

Module PlayFromInput.
Record t : Type :=
  Build { timestamp : float; chapterId : Z; reciterId : Z }.
End PlayFromInput.

(** The classes of [FeedbackWidget.module.scss] that the widget uses, told
    apart by their names. *)
Module styles.
Inductive ClassName : Type :=
| container
| isMobileMinimizedForScrolling
| audioPlayerOpen.
End styles.

(** ** Thunks as effect trees *)

Inductive Thunk (A : Type) : Type :=
| Ret (a : A)
| Throw (e : Error)
| GetState (k : RootState -> Thunk A)
| Dispatch (a : Action) (k : Thunk A)
| Trigger (c : TriggerCall) (k : Thunk A)
| Await (reciterId chapterId : Z) (k : AudioFile.t -> Thunk A).

Arguments Ret {A} a.
Arguments Throw {A} e.
Arguments GetState {A} k.
Arguments Dispatch {A} a k.
Arguments Trigger {A} c k.
Arguments Await {A} reciterId chapterId k.

Fixpoint bind {A B : Type} (t : Thunk A) (f : A -> Thunk B) : Thunk B :=
  match t with
  | Ret a => f a
  | Throw e => Throw e
  | GetState k => GetState (fun s => bind (k s) f)
  | Dispatch a k => Dispatch a (bind k f)
  | Trigger c k => Trigger c (bind k f)
  | Await r c k => Await r c (fun file => bind (k file) f)
  end.

Declare Scope thunk_scope.
Delimit Scope thunk_scope with thunk.
Notation "x <- t ;; u" := (bind t (fun x => u))
  (at level 61, t at next level, right associativity) : thunk_scope.
Notation "t ;; u" := (bind t (fun _ => u))
  (at level 61, right associativity) : thunk_scope.

Definition getState : Thunk RootState := GetState Ret.
Definition dispatch (a : Action) : Thunk unit := Dispatch a (Ret tt).
Definition call (c : TriggerCall) : Thunk unit := Trigger c (Ret tt).
Definition getChapterAudioFile (reciterId chapterId : Z) : Thunk AudioFile.t :=
  Await reciterId chapterId Ret.
Definition throw {A : Type} (e : Error) : Thunk A := Throw e.

(** [x.chapterId] on a value that may be [null]. *)
Definition chapterIdOf (x : option AudioFile.t) : Thunk Z :=
  match x with
  | Some file => Ret (AudioFile.chapterId file)
  | None => throw TypeError
  end.

Section Slice.

(** [DEFAULT_RECITER] of [./defaultData], which is not among the sources:
    the development holds for any value of it. *)
Variable DEFAULT_RECITER : Reciter.t.

Definition initialState : AudioState := {|
  enableAutoScrolling := true;
  isPlaying := false;
  audioFile := None;
  reciter := DEFAULT_RECITER;
  audioFileStatus := NoFile;
  isMobileMinimizedForScrolling := false
|}.

(** *** Selectors *)

Definition selectAudioPlayerState (state : RootState) : AudioState :=
  audioPlayerState state.
Definition selectReciter (state : RootState) : Reciter.t :=
  reciter (audioPlayerState state).
Definition selectIsUsingDefaultReciter (state : RootState) : bool :=
  Reciter.id (reciter (audioPlayerState state)) =? Reciter.id DEFAULT_RECITER.
Definition selectAudioFile (state : RootState) : option AudioFile.t :=
  audioFile (audioPlayerState state).
Definition selectAudioFileStatus (state : RootState) : AudioFileStatus :=
  audioFileStatus (audioPlayerState state).
Definition selectIsPlaying (state : RootState) : bool :=
  isPlaying (audioPlayerState state).
Definition selectIsMobileMinimizedForScrolling (state : RootState) : bool :=
  isMobileMinimizedForScrolling (audioPlayerState state).
Definition selectEnableAutoScrolling (state : RootState) : bool :=
  enableAutoScrolling (audioPlayerState state).

(** *** The slice reducer

    Every case reducer returns a copy of the state ([...state]) with the
    named fields replaced. *)
Definition reducer (state : AudioState) (action : Action) : AudioState :=
  match action with
  | setIsPlaying payload =>
      {| isPlaying := payload;
         reciter := reciter state;
         audioFile := audioFile state;
         audioFileStatus := audioFileStatus state;
         isMobileMinimizedForScrolling := isMobileMinimizedForScrolling state;
         enableAutoScrolling := enableAutoScrolling state |}
  | setIsMobileMinimizedForScrolling payload =>
      {| isPlaying := isPlaying state;
         reciter := reciter state;
         audioFile := audioFile state;
         audioFileStatus := audioFileStatus state;
         isMobileMinimizedForScrolling := payload;
         enableAutoScrolling := enableAutoScrolling state |}
  | setReciter payload =>
      {| isPlaying := isPlaying state;
         reciter := payload;
         audioFile := audioFile state;
         audioFileStatus := audioFileStatus state;
         isMobileMinimizedForScrolling := isMobileMinimizedForScrolling state;
         enableAutoScrolling := enableAutoScrolling state |}
  | setAudioFile payload =>
      {| isPlaying := isPlaying state;
         reciter := reciter state;
         audioFile := payload;
         audioFileStatus := audioFileStatus state;
         isMobileMinimizedForScrolling := isMobileMinimizedForScrolling state;
         enableAutoScrolling := enableAutoScrolling state |}
  | setAudioStatus payload =>
      {| isPlaying := isPlaying state;
         reciter := reciter state;
         audioFile := audioFile state;
         audioFileStatus := payload;
         isMobileMinimizedForScrolling := isMobileMinimizedForScrolling state;
         enableAutoScrolling := enableAutoScrolling state |}
  | setEnableAutoScrolling payload =>
      {| isPlaying := isPlaying state;
         reciter := reciter state;
         audioFile := audioFile state;
         audioFileStatus := audioFileStatus state;
         isMobileMinimizedForScrolling := isMobileMinimizedForScrolling state;
         enableAutoScrolling := payload |}
  | resetAudioFile =>
      {| isPlaying := isPlaying state;
         reciter := reciter state;
         audioFile := audioFile initialState;
         audioFileStatus := audioFileStatus initialState;
         isMobileMinimizedForScrolling := isMobileMinimizedForScrolling state;
         enableAutoScrolling := enableAutoScrolling state |}
  | resetSettings =>
      {| isPlaying := isPlaying state;
         reciter := DEFAULT_RECITER;
         audioFile := audioFile state;
         audioFileStatus := audioFileStatus state;
         isMobileMinimizedForScrolling := isMobileMinimizedForScrolling state;
         enableAutoScrolling := enableAutoScrolling state |}
  end.

(** The store applies the slice reducer to the slice's part of the root
    state. *)
Definition rootReducer (state : RootState) (action : Action) : RootState :=
  {| audioPlayerState := reducer (audioPlayerState state) action |}.

Definition initialRootState : RootState :=
  {| audioPlayerState := initialState |}.

(** *** The async thunks

    The lifecycle actions that [createAsyncThunk] dispatches around the
    payload creator (pending, fulfilled, rejected) have no case in the
    slice, whose reducer returns the state as it is for them; they are left
    out. *)

Local Open Scope thunk_scope.

(** [currentAudioFile && currentAudioFile.chapterId === chapter] *)
Definition loadedForChapter (currentAudioFile : option AudioFile.t)
    (chapter : Z) : bool :=
  match currentAudioFile with
  | Some file => AudioFile.chapterId file =? chapter
  | None => false
  end.

Definition loadAndPlayAudioFile (chapter : Z) : Thunk unit :=
  state0 <- getState ;;
  let currentAudioFile := selectAudioFile state0 in
  if loadedForChapter currentAudioFile chapter then
    call triggerPlayAudio
  else
    dispatch (setAudioStatus Loading) ;;
    state1 <- getState ;;
    let reciter := selectReciter state1 in
    audioFile <- getChapterAudioFile (Reciter.id reciter) chapter ;;
    dispatch (setAudioFile (Some audioFile)) ;;
    call triggerPlayAudio.

Definition setReciterAndPauseAudio (reciter : Reciter.t) : Thunk unit :=
  dispatch (setAudioStatus Loading) ;;
  call triggerPauseAudio ;;
  dispatch (setReciter reciter) ;;
  state <- getState ;;
  chapter <- chapterIdOf (selectAudioFile state) ;;
  audioFile <- getChapterAudioFile (Reciter.id reciter) chapter ;;
  dispatch (setAudioFile (Some audioFile)).

(** [!audioFile || audioFile.chapterId !== chapterId ||
     reciter.id !== reciterId] *)
Definition needsFetch (audioFile : option AudioFile.t) (reciter : Reciter.t)
    (chapterId reciterId : Z) : bool :=
  match audioFile with
  | None => true
  | Some file =>
      negb (AudioFile.chapterId file =? chapterId)
      || negb (Reciter.id reciter =? reciterId)
  end.

Definition playFrom (input : PlayFromInput.t) : Thunk unit :=
  let timestamp := PlayFromInput.timestamp input in
  let chapterId := PlayFromInput.chapterId input in
  let reciterId := PlayFromInput.reciterId input in
  state <- getState ;;
  let reciter := selectReciter state in
  let audioFile := selectAudioFile state in
  (if needsFetch audioFile reciter chapterId reciterId then
     dispatch (setAudioStatus Loading) ;;
     audioFile' <- getChapterAudioFile (Reciter.id reciter) chapterId ;;
     dispatch (setAudioFile (Some audioFile'))
   else Ret tt) ;;
  let timestampInSeconds := PrimFloat.div timestamp 1000%float in
  call (triggerSetCurrentTime timestampInSeconds) ;;
  call triggerPlayAudio.

Local Close Scope thunk_scope.

(** The three operations that fetch, by the name the specification gives
    them. *)
Inductive Operation : Type :=
| loadAndPlay (chapter : Z)
| setReciterAndPause (newReciter : Reciter.t)
| playFromTimestamp (input : PlayFromInput.t).

Definition thunkOf (op : Operation) : Thunk unit :=
  match op with
  | loadAndPlay chapter => loadAndPlayAudioFile chapter
  | setReciterAndPause newReciter => setReciterAndPauseAudio newReciter
  | playFromTimestamp input => playFrom input
  end.

(** ** What a thunk does: one call, run to its end

    The observable effects of a thunk, in the order they happen. *)
Inductive Event : Type :=
| EvDispatch (a : Action)
| EvTrigger (c : TriggerCall)
| EvFetch (reciterId chapterId : Z).

(** The Audio File Provider, seen from the thunk: asked for a reciter and a
    chapter, the promise resolves with a file or rejects. *)
Inductive FetchReply : Type :=
| Resolves (file : AudioFile.t)
| Rejects.

Definition Provider : Type := Z -> Z -> FetchReply.

(** How the promise of the payload creator settles.  ([createAsyncThunk]
    turns a rejection into a lifecycle action; the slice has no case for
    it.) *)
Inductive Outcome : Type :=
| Fulfilled
| RejectedWith (e : Error).

Record Run : Type := mkRun {
  final : RootState;
  trace : list Event;
  outcome : Outcome
}.

Definition after (e : Event) (r : Run) : Run :=
  {| final := final r; trace := e :: trace r; outcome := outcome r |}.

(** [run api t s] calls the thunk [t] on the store [s] and lets nothing
    else happen until its promise settles.  An exception (a rejected
    [await], a read on [null]) ends the async function there: no later
    statement runs, and nothing in the source catches it. *)
Fixpoint run (api : Provider) (t : Thunk unit) (s : RootState) : Run :=
  match t with
  | Ret _ => {| final := s; trace := []; outcome := Fulfilled |}
  | Throw e => {| final := s; trace := []; outcome := RejectedWith e |}
  | GetState k => run api (k s) s
  | Dispatch a k => after (EvDispatch a) (run api k (rootReducer s a))
  | Trigger c k => after (EvTrigger c) (run api k s)
  | Await r c k =>
      match api r c with
      | Resolves file => after (EvFetch r c) (run api (k file) s)
      | Rejects =>
          {| final := s; trace := [EvFetch r c];
             outcome := RejectedWith FetchError |}
      end
  end.

Definition isFetch (e : Event) : bool :=
  match e with EvFetch _ _ => true | _ => false end.
Definition isDispatch (e : Event) : bool :=
  match e with EvDispatch _ => true | _ => false end.
Definition isPlay (e : Event) : bool :=
  match e with EvTrigger triggerPlayAudio => true | _ => false end.
Definition isTrigger (e : Event) : bool :=
  match e with EvTrigger _ => true | _ => false end.

Definition count (p : Event -> bool) (l : list Event) : nat :=
  List.length (List.filter p l).

(** [precedes a b l]: [a] and [b] both occur in [l], [a] at an earlier
    position than [b]. *)
Definition precedes (a b : Event) (l : list Event) : Prop :=
  exists l1 l2 l3, l = l1 ++ a :: l2 ++ b :: l3.

(** ** The store and the event loop

    The page is single threaded: a thunk runs without interruption up to its
    [await], where it is parked until the fetch settles; in between, the
    user interface dispatches actions and starts other thunks, and parked
    fetches settle in any order.  [tick] is one effect of the running code,
    so every store content that a subscriber can observe is the [store] of
    some machine. *)

Record Parked : Type := mkParked {
  askedReciter : Z;
  askedChapter : Z;
  resume : AudioFile.t -> Thunk unit
}.

Record Machine : Type := mkMachine {
  store : RootState;
  running : option (Thunk unit);
  parked : list Parked;
  log : list Event
}.

Definition boot : Machine :=
  {| store := initialRootState; running := None; parked := []; log := [] |}.

Definition tick (m : Machine) : option Machine :=
  match running m with
  | None => None
  | Some (Ret _) | Some (Throw _) =>
      Some {| store := store m; running := None;
              parked := parked m; log := log m |}
  | Some (GetState k) =>
      Some {| store := store m; running := Some (k (store m));
              parked := parked m; log := log m |}
  | Some (Dispatch a k) =>
      Some {| store := rootReducer (store m) a; running := Some k;
              parked := parked m; log := log m ++ [EvDispatch a] |}
  | Some (Trigger c k) =>
      Some {| store := store m; running := Some k;
              parked := parked m; log := log m ++ [EvTrigger c] |}
  | Some (Await r c k) =>
      Some {| store := store m; running := None;
              parked := parked m ++ [mkParked r c k];
              log := log m ++ [EvFetch r c] |}
  end.

(** What reaches the idle page from outside: an action dispatched by a
    component, a call of one of the thunks, the settling of the [n]-th
    outstanding fetch. *)
Inductive Input : Type :=
| Dispatched (a : Action)
| Called (op : Operation)
| FetchResolved (n : nat) (file : AudioFile.t)
| FetchRejected (n : nat).

Fixpoint remove_nth {A : Type} (n : nat) (l : list A) : list A :=
  match n, l with
  | _, [] => []
  | O, _ :: l' => l'
  | S n', x :: l' => x :: remove_nth n' l'
  end.

Definition start (m : Machine) (t : Thunk unit) : Machine :=
  {| store := store m; running := Some t; parked := parked m; log := log m |}.

Definition feed (m : Machine) (i : Input) : option Machine :=
  match running m with
  | Some _ => None
  | None =>
      match i with
      | Dispatched a => Some (start m (dispatch a))
      | Called op => Some (start m (thunkOf op))
      | FetchResolved n file =>
          match nth_error (parked m) n with
          | Some p =>
              Some {| store := store m; running := Some (resume p file);
                      parked := remove_nth n (parked m); log := log m |}
          | None => None
          end
      | FetchRejected n =>
          match nth_error (parked m) n with
          | Some p =>
              Some {| store := store m; running := Some (Throw FetchError);
                      parked := remove_nth n (parked m); log := log m |}
          | None => None
          end
      end
  end.

(** The machines that the page can be in, when the inputs it receives are
    those that [allowed] lets through. *)
Inductive reachable (allowed : Machine -> Input -> Prop) : Machine -> Prop :=
| reach_boot : reachable allowed boot
| reach_tick m m' :
    reachable allowed m -> tick m = Some m' -> reachable allowed m'
| reach_feed m i m' :
    reachable allowed m -> allowed m i -> feed m i = Some m' ->
    reachable allowed m'.

Definition anything : Machine -> Input -> Prop := fun _ _ => True.

(** The inputs of a page whose components do not make the status [NoFile]
    false by hand: they dispatch no file while the status is [NoFile], they
    dispatch the status [NoFile] only when there is neither a file nor an
    outstanding fetch, and they reset the file only when no fetch is
    outstanding.  Every other input is let through: the thunks, the other
    actions, [setAudioStatus] with [Ready] or [Loading], [setAudioFile]
    with [null], and the fetches settling in any order. *)
Definition withoutFalseNoFile (m : Machine) (i : Input) : Prop :=
  match i with
  | Dispatched (setAudioFile (Some _)) =>
      selectAudioFileStatus (store m) <> NoFile
  | Dispatched (setAudioStatus NoFile) =>
      selectAudioFile (store m) = None /\ parked m = []
  | Dispatched resetAudioFile => parked m = []
  | _ => True
  end.

(** The store is settled when the status [NoFile] goes with no audio file
    and, as [quiet] records, no outstanding fetch. *)
Definition settled (s : RootState) (quiet : bool) : Prop :=
  selectAudioFileStatus s = NoFile ->
  selectAudioFile s = None /\ quiet = true.

(** [orderly t s quiet]: running [t] from the store [s] keeps the store
    settled after each dispatch, awaits only once the status is not
    [NoFile], and what it leaves behind its [await] is orderly again in
    whatever store it is resumed, as long as the status is not [NoFile]
    there. *)
Fixpoint orderly (t : Thunk unit) (s : RootState) (quiet : bool) : Prop :=
  match t with
  | Ret _ | Throw _ => True
  | GetState k => orderly (k s) s quiet
  | Dispatch a k =>
      settled (rootReducer s a) quiet /\ orderly k (rootReducer s a) quiet
  | Trigger c k => orderly k s quiet
  | Await r c k =>
      selectAudioFileStatus s <> NoFile /\
      forall file s',
        selectAudioFileStatus s' <> NoFile -> orderly (k file) s' false
  end.

Definition quietOf (m : Machine) : bool :=
  match parked m with
  | [] => true
  | _ :: _ => false
  end.

Definition invariant (m : Machine) : Prop :=
  settled (store m) (quietOf m) /\
  (forall p, In p (parked m) ->
     forall file s',
       selectAudioFileStatus s' <> NoFile -> orderly (resume p file) s' false) /\
  match running m with
  | Some t => orderly t (store m) (quietOf m)
  | None => True
  end.

(** [settle t s waiting events] runs the code [t] up to its end or its
    [await], from the store [s], the outstanding fetches [waiting] and the
    log [events]: the ticks of [t], in one go. *)
Fixpoint settle (t : Thunk unit) (s : RootState) (waiting : list Parked)
    (events : list Event) : Machine :=
  match t with
  | Ret _ | Throw _ =>
      {| store := s; running := None; parked := waiting; log := events |}
  | GetState k => settle (k s) s waiting events
  | Dispatch a k =>
      settle k (rootReducer s a) waiting (events ++ [EvDispatch a])
  | Trigger c k => settle k s waiting (events ++ [EvTrigger c])
  | Await r c k =>
      {| store := s; running := None;
         parked := waiting ++ [mkParked r c k];
         log := events ++ [EvFetch r c] |}
  end.

(** One input, and the code it starts run until the page is idle again. *)
Definition react (m : Machine) (i : Input) : option Machine :=
  match feed m i with
  | Some m' =>
      match running m' with
      | Some t => Some (settle t (store m') (parked m') (log m'))
      | None => Some m'
      end
  | None => None
  end.

Fixpoint script (m : Machine) (inputs : list Input) : option Machine :=
  match inputs with
  | [] => Some m
  | i :: rest =>
      match react m i with
      | Some m' => script m' rest
      | None => None
      end
  end.

(** The page after the given inputs, from its start; an input that cannot
    be taken ends the script with [None]. *)
Definition afterInputs (inputs : list Input) : option Machine :=
  script boot inputs.

(** Every input of the script is let through by [allowed] when it
    arrives. *)
Fixpoint permitted (allowed : Machine -> Input -> Prop) (m : Machine)
    (inputs : list Input) : Prop :=
  match inputs with
  | [] => True
  | i :: rest =>
      allowed m i /\
      match react m i with
      | Some m' => permitted allowed m' rest
      | None => True
      end
  end.

(** The claimed invariant, as a property of a store content. *)
Definition noFileIffAbsent (s : RootState) : Prop :=
  selectAudioFileStatus s = NoFile <-> selectAudioFile s = None.

(** The store after the dispatches of a trace, in their order. *)
Definition replayEvent (s : RootState) (e : Event) : RootState :=
  match e with
  | EvDispatch a => rootReducer s a
  | _ => s
  end.

Definition replay (l : list Event) (s : RootState) : RootState :=
  fold_left replayEvent l s.

(** ** The feedback widget

    [classNames(a, { k1: b1, k2: b2 })] is the string of [a] and of the keys
    whose value is truthy, separated by spaces; it is kept as the list of
    these class names. *)
Definition classNames (base : styles.ClassName)
    (conditional : list (styles.ClassName * bool)) : list styles.ClassName :=
  base :: map fst (filter snd conditional).

Definition isHidden (state : RootState) : bool :=
  let audioFileStatus := selectAudioFileStatus state in
  AudioFileStatus_eqb audioFileStatus NoFile.

(** The class names of the widget's outer [div], which is all of the
    component that depends on the store. *)
Definition FeedbackWidget (state : RootState) : list styles.ClassName :=
  let isMobileMinimizedForScrolling :=
    selectIsMobileMinimizedForScrolling state in
  classNames styles.container
    [ (styles.isMobileMinimizedForScrolling, isMobileMinimizedForScrolling);
      (styles.audioPlayerOpen, negb (isHidden state)) ].

(** ** The fields that an action writes

    Every case reducer is [{ ...state, field: value, ... }]: [writes] lists
    the fields it names after the spread. *)
Inductive Field : Type :=
| FisPlaying
| Freciter
| FaudioFile
| FaudioFileStatus
| FisMobileMinimizedForScrolling
| FenableAutoScrolling.

Definition writes (a : Action) : list Field :=
  match a with
  | setIsPlaying _ => [FisPlaying]
  | setIsMobileMinimizedForScrolling _ => [FisMobileMinimizedForScrolling]
  | setReciter _ => [Freciter]
  | setAudioFile _ => [FaudioFile]
  | setAudioStatus _ => [FaudioFileStatus]
  | setEnableAutoScrolling _ => [FenableAutoScrolling]
  | resetAudioFile => [FaudioFile; FaudioFileStatus]
  | resetSettings => [Freciter]
  end.

(** Two states hold the same value in the field [f]. *)
Definition agreeOn (f : Field) (s s' : AudioState) : Prop :=
  match f with
  | FisPlaying => isPlaying s = isPlaying s'
  | Freciter => reciter s = reciter s'
  | FaudioFile => audioFile s = audioFile s'
  | FaudioFileStatus => audioFileStatus s = audioFileStatus s'
  | FisMobileMinimizedForScrolling =>
      isMobileMinimizedForScrolling s = isMobileMinimizedForScrolling s'
  | FenableAutoScrolling => enableAutoScrolling s = enableAutoScrolling s'
  end.

Definition isPause (e : Event) : bool :=
  match e with EvTrigger triggerPauseAudio => true | _ => false end.
Definition isSetCurrentTime (e : Event) : bool :=
  match e with EvTrigger (triggerSetCurrentTime _) => true | _ => false end.

(** ** The shape of the code that runs on the page

    What a thunk leaves behind its [await] stores the file it is resumed
    with and then only calls the audio element; what runs before the
    [await] dispatches actions that [ok] accepts. *)
Fixpoint triggersOnly (t : Thunk unit) : Prop :=
  match t with
  | Ret _ => True
  | Trigger _ k => triggersOnly k
  | _ => False
  end.

Definition storesThen (file : AudioFile.t) (t : Thunk unit) : Prop :=
  match t with
  | Dispatch (setAudioFile (Some file')) k => file' = file /\ triggersOnly k
  | _ => False
  end.

Fixpoint shaped (ok : Action -> Prop) (t : Thunk unit) : Prop :=
  match t with
  | Ret _ | Throw _ => True
  | GetState k => forall s, shaped ok (k s)
  | Dispatch a k => ok a /\ shaped ok k
  | Trigger _ k => shaped ok k
  | Await _ _ k => forall file, storesThen file (k file)
  end.

(** The inputs whose dispatched actions are all accepted by [ok]. *)
Definition dispatching (ok : Action -> Prop) (m : Machine) (i : Input) : Prop :=
  match i with
  | Dispatched a => ok a
  | _ => True
  end.

(** The page is tidy for [ok] and the store property [P]: the store has
    [P], the parked code stores the file it is resumed with, and the
    running code is shaped. *)
Definition tidy (ok : Action -> Prop) (P : RootState -> Prop)
    (m : Machine) : Prop :=
  P (store m) /\
  (forall p, In p (parked m) ->
     forall file, storesThen file (resume p file)) /\
  match running m with
  | Some t => shaped ok t
  | None => True
  end.

Definition notReady (a : Action) : Prop := a <> setAudioStatus Ready.

(** The actions that leave [isPlaying], [isMobileMinimizedForScrolling] and
    [enableAutoScrolling] alone. *)
Definition notAFlag (a : Action) : Prop :=
  match a with
  | setIsPlaying _ | setIsMobileMinimizedForScrolling _
  | setEnableAutoScrolling _ => False
  | _ => True
  end.

(** ** Values for the examples

    A default reciter, a second reciter, and the files of the scenarios of
    the specification. *)
Definition defaultReciter : Reciter.t :=
  {| Reciter.id := 7; Reciter.name := "default" |}.
Definition reciter1 : Reciter.t :=
  {| Reciter.id := 1; Reciter.name := "first" |}.
Definition reciter2 : Reciter.t :=
  {| Reciter.id := 2; Reciter.name := "second" |}.
Definition af2 : AudioFile.t :=
  {| AudioFile.id := "af-2"; AudioFile.chapterId := 2;
     AudioFile.audioUrl := "https://audio.example/2.mp3";
     AudioFile.duration := 360000 |}.
Definition af5 : AudioFile.t :=
  {| AudioFile.id := "af-5"; AudioFile.chapterId := 5;
     AudioFile.audioUrl := "https://audio.example/5.mp3";
     AudioFile.duration := 1500000 |}.
Definition af5' : AudioFile.t :=
  {| AudioFile.id := "af-5-r2"; AudioFile.chapterId := 5;
     AudioFile.audioUrl := "https://audio.example/r2/5.mp3";
     AudioFile.duration := 1400000 |}.

(** A provider that has a file for chapter 2, and one per reciter for
    chapter 5; and one whose every fetch rejects. *)
Definition library : Provider :=
  fun reciterId chapterId =>
    if chapterId =? 2 then Resolves af2
    else if chapterId =? 5 then
      (if reciterId =? 2 then Resolves af5' else Resolves af5)
    else Rejects.
Definition offline : Provider := fun _ _ => Rejects.

(** The store of the second scenario: chapter 5 loaded, reciter 1. *)
Definition chapter5Loaded : RootState :=
  {| audioPlayerState :=
       {| isPlaying := true; reciter := reciter1; audioFile := Some af5;
          audioFileStatus := Loading; isMobileMinimizedForScrolling := false;
          enableAutoScrolling := true |} |}.

(** * Properties *)

(** ** The reducer *)

Lemma rootReducer_status_file (s : RootState) (a : Action) :
  match a with
  | setAudioFile _ | setAudioStatus _ | resetAudioFile => True
  | _ =>
      selectAudioFileStatus (rootReducer s a) = selectAudioFileStatus s /\
      selectAudioFile (rootReducer s a) = selectAudioFile s
  end.
Proof. destruct a; simpl; auto. Qed.

(** C7: for every prior state, the reset-settings action sets the reciter
    to the default reciter and leaves the five other fields as they were. *)
Theorem resetSettings_resets_reciter_only (state : AudioState) :
  let state' := reducer state resetSettings in
  reciter state' = DEFAULT_RECITER /\
  audioFile state' = audioFile state /\
  audioFileStatus state' = audioFileStatus state /\
  isPlaying state' = isPlaying state /\
  isMobileMinimizedForScrolling state' = isMobileMinimizedForScrolling state /\
  enableAutoScrolling state' = enableAutoScrolling state.
Proof. simpl. repeat split. Qed.

(** C8: for every state, [resetAudioFile] leaves no audio file and the
    status [NoFile], changes no other field, calls nothing of the audio
    element, and dispatching it a second time changes nothing more. *)
Theorem resetAudioFile_clears_and_is_idempotent
    (api : Provider) (s : RootState) :
  let s' := rootReducer s resetAudioFile in
  selectAudioFile s' = None /\
  selectAudioFileStatus s' = NoFile /\
  selectReciter s' = selectReciter s /\
  selectIsPlaying s' = selectIsPlaying s /\
  rootReducer s' resetAudioFile = s' /\
  final (run api (dispatch resetAudioFile) s) = s' /\
  count isTrigger (trace (run api (dispatch resetAudioFile) s)) = 0%nat.
Proof. simpl. repeat split. Qed.

(** X1: [writes] is exact.  A field that an action does not write keeps
    its value; a field that it writes gets a value that does not depend on
    the state the action is applied to. *)
Theorem reducer_writes_exactly (a : Action) (f : Field) (s s' : AudioState) :
  (~ In f (writes a) -> agreeOn f (reducer s a) s) /\
  (In f (writes a) -> agreeOn f (reducer s a) (reducer s' a)).
Proof.
  split.
  - intros Hnot. destruct a, f; simpl in *; try reflexivity;
      exfalso; apply Hnot; auto.
  - intros Hin. destruct a, f; simpl in *; try reflexivity;
      repeat (destruct Hin as [Hin | Hin]; [discriminate Hin |]);
      contradiction.
Qed.

(** X2: two actions that write no common field commute. *)
Theorem reducer_commutes_on_disjoint_writes (a b : Action) (s : AudioState) :
  (forall f, In f (writes a) -> ~ In f (writes b)) ->
  reducer (reducer s a) b = reducer (reducer s b) a.
Proof.
  intros Hdisjoint.
  destruct a, b; simpl; try reflexivity; exfalso;
    first [ apply (Hdisjoint FisPlaying); simpl; now auto
          | apply (Hdisjoint Freciter); simpl; now auto
          | apply (Hdisjoint FaudioFile); simpl; now auto
          | apply (Hdisjoint FaudioFileStatus); simpl; now auto
          | apply (Hdisjoint FisMobileMinimizedForScrolling); simpl; now auto
          | apply (Hdisjoint FenableAutoScrolling); simpl; now auto ].
Qed.

(** [absurd_write H f] closes the goal when [H : incl (writes a) (writes b)]
    and [a] writes the field [f] that [b] does not write. *)
Ltac absurd_write H f :=
  let Hf := fresh in
  assert (Hf := H f); simpl in Hf;
  let Hin := fresh in
  assert (Hin := Hf ltac:(auto)); 
  repeat (destruct Hin as [Hin | Hin]; [discriminate Hin |]);
  contradiction.

(** X3: an action erases every earlier action that writes only fields it
    writes too: the last write wins, every action is idempotent, and
    [resetAudioFile] undoes [setAudioFile] and [setAudioStatus]. *)
Theorem reducer_absorbs_covered_writes (a b : Action) (s : AudioState) :
  incl (writes a) (writes b) ->
  reducer (reducer s a) b = reducer s b.
Proof.
  intros Hincl.
  destruct a, b; simpl; try reflexivity; exfalso;
    first [ absurd_write Hincl FisPlaying
          | absurd_write Hincl Freciter
          | absurd_write Hincl FaudioFile
          | absurd_write Hincl FaudioFileStatus
          | absurd_write Hincl FisMobileMinimizedForScrolling
          | absurd_write Hincl FenableAutoScrolling ].
Qed.

(** ** The feedback widget *)

Lemma AudioFileStatus_eqb_eq (a b : AudioFileStatus) :
  AudioFileStatus_eqb a b = true <-> a = b.
Proof. destruct a, b; simpl; split; congruence. Qed.

(** C10: the widget is hidden exactly when the status is [NoFile]; it has
    the class of the open player exactly when the status is [Loading] or
    [Ready]; and it has the class of the minimized player exactly when the
    flag is set, whatever the status is. *)
Theorem feedbackWidget_open_unless_NoFile (s : RootState) :
  (isHidden s = true <-> selectAudioFileStatus s = NoFile) /\
  (In styles.audioPlayerOpen (FeedbackWidget s) <->
     selectAudioFileStatus s = Loading \/ selectAudioFileStatus s = Ready) /\
  (In styles.isMobileMinimizedForScrolling (FeedbackWidget s) <->
     selectIsMobileMinimizedForScrolling s = true) /\
  (forall status,
     In styles.isMobileMinimizedForScrolling
        (FeedbackWidget (rootReducer s (setAudioStatus status))) <->
     In styles.isMobileMinimizedForScrolling (FeedbackWidget s)).
Proof.
  destruct s as [[playing rec file status minimized scrolling]].
  unfold FeedbackWidget, isHidden, classNames, selectAudioFileStatus,
    selectIsMobileMinimizedForScrolling; simpl.
  split; [apply AudioFileStatus_eqb_eq|].
  split; [|split].
  - destruct status, minimized; simpl; intuition congruence.
  - destruct status, minimized; simpl; intuition congruence.
  - intros status'.
    destruct status, status', minimized; simpl; intuition congruence.
Qed.

(** ** One call of a thunk *)

Lemma replay_app (l1 l2 : list Event) (s : RootState) :
  replay (l1 ++ l2) s = replay l2 (replay l1 s).
Proof. unfold replay. apply fold_left_app. Qed.

(** The store at the end of a call is the store at its start after the
    dispatches of the call: a thunk changes the store in no other way. *)
Lemma run_final_replay (api : Provider) (t : Thunk unit) :
  forall s, final (run api t s) = replay (trace (run api t s)) s.
Proof.
  induction t as [u | e | k IH | a k IH | c k IH | r c k IH]; intros s;
    simpl.
  - reflexivity.
  - reflexivity.
  - apply IH.
  - apply IH.
  - apply IH.
  - destruct (api r c); simpl; [apply IH | reflexivity].
Qed.

(** C3: for every chapter [C] and every state whose audio file is present
    and of chapter [C], [loadAndPlay C] fetches nothing, dispatches nothing
    and leaves the store as it was, and calls [play] once, and nothing
    else. *)
Theorem loadAndPlay_same_chapter_plays_only
    (api : Provider) (s : RootState) (C : Z) (file : AudioFile.t) :
  selectAudioFile s = Some file ->
  AudioFile.chapterId file = C ->
  let result := run api (loadAndPlayAudioFile C) s in
  count isFetch (trace result) = 0%nat /\
  count isDispatch (trace result) = 0%nat /\
  final result = s /\
  count isPlay (trace result) = 1%nat /\
  trace result = [EvTrigger triggerPlayAudio] /\
  outcome result = Fulfilled.
Proof.
  intros Hfile HC. unfold loadAndPlayAudioFile. simpl.
  rewrite Hfile. simpl. rewrite HC, Z.eqb_refl. simpl. repeat split.
Qed.

(** C9: the test that skips the fetch reads the chapter of the stored file
    and nothing of the reciter.  Whatever reciter the store holds, a stored
    file of chapter [C] is played as it is; in particular after
    [loadAndPlay C] has fetched a file for the reciter of that moment and
    the reciter has then been replaced, [loadAndPlay C] plays the file of
    the former reciter and fetches nothing. *)
Theorem loadAndPlay_skip_ignores_reciter
    (api : Provider) (s : RootState) (C : Z) (file : AudioFile.t)
    (other : Reciter.t) :
  (selectAudioFile s = Some file ->
   AudioFile.chapterId file = C ->
   let s' := rootReducer s (setReciter other) in
   run api (loadAndPlayAudioFile C) s' =
     {| final := s'; trace := [EvTrigger triggerPlayAudio];
        outcome := Fulfilled |}) /\
  (loadedForChapter (selectAudioFile s) C = false ->
   api (Reciter.id (selectReciter s)) C = Resolves file ->
   AudioFile.chapterId file = C ->
   let s1 := final (run api (loadAndPlayAudioFile C) s) in
   let s2 := rootReducer s1 (setReciter other) in
   let again := run api (loadAndPlayAudioFile C) s2 in
   In (EvFetch (Reciter.id (selectReciter s)) C)
      (trace (run api (loadAndPlayAudioFile C) s)) /\
   selectReciter s2 = other /\
   trace again = [EvTrigger triggerPlayAudio] /\
   selectAudioFile (final again) = Some file).
Proof.
  split.
  - intros Hfile HC. unfold loadAndPlayAudioFile. simpl.
    unfold selectAudioFile in *. simpl. rewrite Hfile. simpl.
    rewrite HC, Z.eqb_refl. reflexivity.
  - intros Hskip Hapi HC. unfold loadAndPlayAudioFile. simpl.
    rewrite Hskip. simpl.
    unfold selectReciter in *. simpl. rewrite Hapi. simpl.
    rewrite HC, Z.eqb_refl. simpl. auto.
Qed.

(** [fetch_inversion H] finds which event of a computed trace the
    hypothesis [H : In (EvFetch r c) trace] speaks of: the events that are
    no fetch are ruled out, and [H] is left as the equation with the
    fetch. *)
Ltac fetch_inversion H :=
  simpl in H;
  repeat (destruct H as [H | H]; [try discriminate H |]);
  try contradiction.

(** C1 (amended): for each of the three operations, when the fetch it
    issues resolves, the operation completes, the store holds the fetched
    file, and the status is the [Loading] that was set before the fetch:
    the operation does not dispatch the status [Ready]. *)
Theorem fetch_success_stores_file_status_stays_Loading
    (api : Provider) (op : Operation) (s : RootState)
    (r c : Z) (file : AudioFile.t) :
  In (EvFetch r c) (trace (run api (thunkOf op) s)) ->
  api r c = Resolves file ->
  let result := run api (thunkOf op) s in
  outcome result = Fulfilled /\
  selectAudioFile (final result) = Some file /\
  selectAudioFileStatus (final result) = Loading /\
  ~ In (EvDispatch (setAudioStatus Ready)) (trace result).
Proof.
  intros Hin Hapi. destruct op as [chapter | newReciter | input]; simpl in *.
  - unfold loadAndPlayAudioFile in *. simpl in *.
    destruct (loadedForChapter (selectAudioFile s) chapter); simpl in *.
    + fetch_inversion Hin.
    + destruct (api _ chapter) as [file' |] eqn:Hreply; simpl in *.
      * fetch_inversion Hin. injection Hin as Hr Hc. subst r c.
        rewrite Hapi in Hreply. injection Hreply as <-.
        repeat split. intros Hready. fetch_inversion Hready.
      * fetch_inversion Hin. injection Hin as Hr Hc. subst r c.
        congruence.
  - unfold setReciterAndPauseAudio in *. simpl in *.
    unfold selectAudioFile in *. simpl in *.
    destruct (audioFile (audioPlayerState s)) as [current |]; simpl in *.
    + destruct (api _ (AudioFile.chapterId current)) as [file' |] eqn:Hreply;
        simpl in *.
      * fetch_inversion Hin. injection Hin as Hr Hc. subst r c.
        rewrite Hapi in Hreply. injection Hreply as <-.
        repeat split. intros Hready. fetch_inversion Hready.
      * fetch_inversion Hin. injection Hin as Hr Hc. subst r c.
        congruence.
    + fetch_inversion Hin.
  - unfold playFrom in *. simpl in *.
    destruct (needsFetch _ _ _ _); simpl in *.
    + destruct (api _ (PlayFromInput.chapterId input)) as [file' |] eqn:Hreply;
        simpl in *.
      * fetch_inversion Hin. injection Hin as Hr Hc. subst r c.
        rewrite Hapi in Hreply. injection Hreply as <-.
        repeat split. intros Hready. fetch_inversion Hready.
      * fetch_inversion Hin. injection Hin as Hr Hc. subst r c.
        congruence.
    + fetch_inversion Hin.
Qed.


(** C5: in a call of [playFrom] with timestamp [t], the audio element is
    told the time [t / 1000] and then to play, and nothing else: on the
    branch without fetch these are the only effects, on the branch with a
    fetch that resolves they follow the storing of the file; and in no call
    at all does [play] happen without [setCurrentTime (t / 1000)] earlier in
    the trace. *)
Theorem playFrom_sets_time_before_play
    (api : Provider) (input : PlayFromInput.t) (s : RootState) :
  let seek :=
    EvTrigger
      (triggerSetCurrentTime
         (PrimFloat.div (PlayFromInput.timestamp input) 1000%float)) in
  let play := EvTrigger triggerPlayAudio in
  let chapter := PlayFromInput.chapterId input in
  let fetching :=
    needsFetch (selectAudioFile s) (selectReciter s) chapter
      (PlayFromInput.reciterId input) in
  let result := run api (playFrom input) s in
  (fetching = false -> trace result = [seek; play]) /\
  (forall file,
     fetching = true ->
     api (Reciter.id (selectReciter s)) chapter = Resolves file ->
     trace result =
       [ EvDispatch (setAudioStatus Loading);
         EvFetch (Reciter.id (selectReciter s)) chapter;
         EvDispatch (setAudioFile (Some file));
         seek; play ]) /\
  (outcome result = Fulfilled ->
     precedes seek play (trace result) /\
     count isTrigger (trace result) = 2%nat) /\
  (forall before later,
     trace result = before ++ play :: later -> In seek before).
Proof.
  unfold playFrom. simpl.
  destruct (needsFetch _ _ _ _) eqn:Hneeds; simpl.
  - destruct (api _ (PlayFromInput.chapterId input)) as [file' |] eqn:Hreply;
      simpl.
    + split; [discriminate |]. split; [| split].
      * intros file _ Hfile. injection Hfile as <-. reflexivity.
      * intros _. split; [| reflexivity].
        exists [EvDispatch (setAudioStatus Loading);
                EvFetch (Reciter.id (selectReciter s))
                  (PlayFromInput.chapterId input);
                EvDispatch (setAudioFile (Some file'))], [], [].
        reflexivity.
      * intros before later Hsplit.
        do 4 (destruct before as [| ? before];
              [discriminate Hsplit | injection Hsplit as <- Hsplit]).
        simpl. auto.
    + split; [discriminate |]. split; [| split].
      * intros file _ Hfile. discriminate Hfile.
      * discriminate.
      * intros before later Hsplit.
        destruct before as [| ? before]; [discriminate Hsplit |].
        injection Hsplit as _ Hsplit.
        destruct before as [| ? before]; [discriminate Hsplit |].
        injection Hsplit as _ Hsplit.
        destruct before; discriminate Hsplit.
  - split; [reflexivity |]. split; [| split].
    + discriminate.
    + intros _. split; [| reflexivity]. exists [], [], []. reflexivity.
    + intros before later Hsplit.
      destruct before as [| ? before];
        [discriminate Hsplit | injection Hsplit as <- Hsplit].
      simpl. auto.
Qed.

(** C6: when the fetch of one of the three operations rejects, the
    operation ends with that error right there: the fetch is the last
    event, the store is the one the dispatches before the fetch made, with
    status [Loading] and the audio file it had, and after
    [setReciterAndPause] with the new reciter.  Nothing puts the status
    back. *)
Theorem fetch_rejection_leaves_Loading
    (api : Provider) (op : Operation) (s : RootState) (r c : Z) :
  In (EvFetch r c) (trace (run api (thunkOf op) s)) ->
  api r c = Rejects ->
  let result := run api (thunkOf op) s in
  outcome result = RejectedWith FetchError /\
  selectAudioFileStatus (final result) = Loading /\
  selectAudioFile (final result) = selectAudioFile s /\
  (exists before,
     trace result = before ++ [EvFetch r c] /\
     count isDispatch before = count isDispatch (trace result) /\
     final result = replay before s) /\
  (forall newReciter,
     op = setReciterAndPause newReciter ->
     selectReciter (final result) = newReciter).
Proof.
  intros Hin Hapi. destruct op as [chapter | newReciter | input]; simpl in *.
  - unfold loadAndPlayAudioFile in *. simpl in *.
    destruct (loadedForChapter (selectAudioFile s) chapter); simpl in *.
    + fetch_inversion Hin.
    + destruct (api _ chapter) as [file' |] eqn:Hreply; simpl in *.
      * fetch_inversion Hin. injection Hin as Hr Hc. subst r c.
        congruence.
      * fetch_inversion Hin. injection Hin as Hr Hc. subst r c.
        repeat split; try discriminate.
        exists [EvDispatch (setAudioStatus Loading)]. repeat split.
  - unfold setReciterAndPauseAudio in *. simpl in *.
    unfold selectAudioFile in *. simpl in *.
    destruct (audioFile (audioPlayerState s)) as [current |] eqn:Hfile;
      simpl in *.
    + destruct (api _ (AudioFile.chapterId current)) as [file' |] eqn:Hreply;
        simpl in *.
      * fetch_inversion Hin. injection Hin as Hr Hc. subst r c.
        congruence.
      * fetch_inversion Hin. injection Hin as Hr Hc. subst r c.
        repeat split; auto.
        -- exists [EvDispatch (setAudioStatus Loading);
                   EvTrigger triggerPauseAudio;
                   EvDispatch (setReciter newReciter)].
           repeat split.
        -- intros newReciter' Heq. injection Heq as <-. reflexivity.
    + fetch_inversion Hin.
  - unfold playFrom in *. simpl in *.
    destruct (needsFetch _ _ _ _); simpl in *.
    + destruct (api _ (PlayFromInput.chapterId input)) as [file' |] eqn:Hreply;
        simpl in *.
      * fetch_inversion Hin. injection Hin as Hr Hc. subst r c.
        congruence.
      * fetch_inversion Hin. injection Hin as Hr Hc. subst r c.
        repeat split; try discriminate.
        exists [EvDispatch (setAudioStatus Loading)]. repeat split.
    + fetch_inversion Hin.
Qed.

(** *** More on single calls *)

(** [by_cases op api s] splits a goal about [run api (thunkOf op) s] into
    the nine ways such a call can go: for each operation, no fetch, a fetch
    that resolves, a fetch that rejects. *)
Ltac by_cases op api s :=
  destruct op as [chapter | newReciter | input]; simpl;
  [ unfold loadAndPlayAudioFile; simpl;
    destruct (loadedForChapter (selectAudioFile s) chapter) eqn:Hloaded;
    simpl
  | unfold setReciterAndPauseAudio; simpl;
    destruct (selectAudioFile s) as [current |] eqn:Hfile;
    unfold selectAudioFile in *; simpl; rewrite ?Hfile; simpl
  | unfold playFrom; simpl;
    destruct (needsFetch (selectAudioFile s) (selectReciter s)
                (PlayFromInput.chapterId input)
                (PlayFromInput.reciterId input)) eqn:Hneeds; simpl ];
  try match goal with
      | |- context [api ?r ?c] =>
          destruct (api r c) as [file' |] eqn:Hreply; simpl
      end.

(** X4: the thunks change the playback flags in no case, and the reciter
    only in [setReciterAndPause], where it is the new one however the call
    ends. *)
Theorem thunks_leave_flags_and_reciter
    (api : Provider) (op : Operation) (s : RootState) :
  let result := run api (thunkOf op) s in
  selectIsPlaying (final result) = selectIsPlaying s /\
  selectIsMobileMinimizedForScrolling (final result)
    = selectIsMobileMinimizedForScrolling s /\
  selectEnableAutoScrolling (final result) = selectEnableAutoScrolling s /\
  selectReciter (final result) =
    match op with
    | setReciterAndPause newReciter => newReciter
    | _ => selectReciter s
    end.
Proof. by_cases op api s; repeat split. Qed.

(** X5: [selectIsUsingDefaultReciter] compares ids.  It holds after the
    reset of the settings; after [setReciterAndPause r] it tells whether [r]
    has the id of the default reciter, however the call ends; the two other
    thunks do not change it. *)
Theorem selectIsUsingDefaultReciter_follows_id
    (api : Provider) (op : Operation) (s : RootState) :
  selectIsUsingDefaultReciter (rootReducer s resetSettings) = true /\
  selectIsUsingDefaultReciter (final (run api (thunkOf op) s)) =
    match op with
    | setReciterAndPause newReciter =>
        Reciter.id newReciter =? Reciter.id DEFAULT_RECITER
    | _ => selectIsUsingDefaultReciter s
    end.
Proof.
  split.
  - unfold selectIsUsingDefaultReciter. simpl. apply Z.eqb_refl.
  - by_cases op api s; reflexivity.
Qed.

(** X6: [loadAndPlay] and [playFrom] call [play] once when they complete
    and not at all when they fail; [setReciterAndPause] never calls it. *)
Theorem play_exactly_when_completed
    (api : Provider) (op : Operation) (s : RootState) :
  let result := run api (thunkOf op) s in
  count isPlay (trace result) =
    match op, outcome result with
    | setReciterAndPause _, _ => 0%nat
    | _, Fulfilled => 1%nat
    | _, RejectedWith _ => 0%nat
    end.
Proof. by_cases op api s; reflexivity. Qed.

(** X7: [pause] is called by [setReciterAndPause] only, once, however the
    call ends; [setCurrentTime] by [playFrom] only, once, when it
    completes. *)
Theorem pause_and_setCurrentTime_census
    (api : Provider) (op : Operation) (s : RootState) :
  let result := run api (thunkOf op) s in
  count isPause (trace result) =
    match op with
    | setReciterAndPause _ => 1%nat
    | _ => 0%nat
    end /\
  count isSetCurrentTime (trace result) =
    match op, outcome result with
    | playFromTimestamp _, Fulfilled => 1%nat
    | _, _ => 0%nat
    end.
Proof. by_cases op api s; split; reflexivity. Qed.

(** X8: a call fetches at most once, and never before it has dispatched
    the status [Loading]. *)
Theorem fetch_once_and_after_Loading
    (api : Provider) (op : Operation) (s : RootState) :
  let result := run api (thunkOf op) s in
  (count isFetch (trace result) <= 1)%nat /\
  (forall r c,
     In (EvFetch r c) (trace result) ->
     precedes (EvDispatch (setAudioStatus Loading)) (EvFetch r c)
       (trace result)).
Proof.
  by_cases op api s; (split; [auto |]); intros r c Hin;
    fetch_inversion Hin; injection Hin as <- <-.
  - exists [], [], [EvDispatch (setAudioFile (Some file'));
                    EvTrigger triggerPlayAudio]. reflexivity.
  - exists [], [], []. reflexivity.
  - exists [], [EvTrigger triggerPauseAudio;
                EvDispatch (setReciter newReciter)],
      [EvDispatch (setAudioFile (Some file'))]. reflexivity.
  - exists [], [EvTrigger triggerPauseAudio;
                EvDispatch (setReciter newReciter)], []. reflexivity.
  - exists [], [], [EvDispatch (setAudioFile (Some file'));
                    EvTrigger
                      (triggerSetCurrentTime
                         (PrimFloat.div (PlayFromInput.timestamp input)
                            1000%float));
                    EvTrigger triggerPlayAudio]. reflexivity.
  - exists [], [], []. reflexivity.
Qed.

(** X9: how a call fails.  It ends with a [TypeError] exactly when it is
    [setReciterAndPause] on a store without audio file, and with the error
    of the fetch exactly when it has issued a fetch that rejects. *)
Theorem outcome_characterised
    (api : Provider) (op : Operation) (s : RootState) :
  let result := run api (thunkOf op) s in
  (outcome result = RejectedWith TypeError <->
     (exists newReciter, op = setReciterAndPause newReciter) /\
     selectAudioFile s = None) /\
  (outcome result = RejectedWith FetchError <->
     exists r c, In (EvFetch r c) (trace result) /\ api r c = Rejects).
Proof.
  by_cases op api s; (split; split).
  all: try (intros [[other Hop] Hnone];
            first [discriminate Hop | congruence]).
  all: try (intros H;
            first [ discriminate H
                  | split; [eexists; reflexivity | reflexivity] ]).
  all: try (intros (r & c & Hin & Hrej);
            first [ reflexivity
                  | fetch_inversion Hin; try (injection Hin as <- <-);
                    congruence ]).
  all: intros _; do 2 eexists; (split; [simpl; eauto 6 | eassumption]).
Qed.

(** X10: [playFrom] skips the fetch only where [loadAndPlay] of the same
    chapter skips it too; and where [loadAndPlay] skips it, [playFrom] does
    when it is called with the id of the current reciter. *)
Theorem playFrom_skips_only_where_loadAndPlay_skips
    (api api' : Provider) (input : PlayFromInput.t) (s : RootState) :
  let chapter := PlayFromInput.chapterId input in
  (count isFetch (trace (run api (playFrom input) s)) = 0%nat ->
   count isFetch (trace (run api' (loadAndPlayAudioFile chapter) s)) = 0%nat)
  /\
  (count isFetch (trace (run api' (loadAndPlayAudioFile chapter) s)) = 0%nat ->
   Reciter.id (selectReciter s) = PlayFromInput.reciterId input ->
   count isFetch (trace (run api (playFrom input) s)) = 0%nat).
Proof.
  unfold playFrom, loadAndPlayAudioFile, needsFetch, loadedForChapter.
  simpl. destruct (selectAudioFile s) as [file |]; simpl.
  - destruct (AudioFile.chapterId file =? PlayFromInput.chapterId input);
      simpl.
    + split; [reflexivity |]. intros _ Hsame.
      rewrite Hsame, Z.eqb_refl. reflexivity.
    + split.
      * destruct (api _ _); simpl; discriminate.
      * destruct (api' _ _); simpl; discriminate.
  - split.
    + destruct (api _ _); simpl; discriminate.
    + destruct (api' _ _); simpl; discriminate.
Qed.

(** X11: [playFrom] asked for another reciter than the current one fetches
    for the current reciter, and leaves the reciter as it is: called again
    on the state it left, it issues the same fetch again. *)
Theorem playFrom_fetches_for_the_current_reciter
    (api api' : Provider) (input : PlayFromInput.t) (s : RootState) :
  Reciter.id (selectReciter s) <> PlayFromInput.reciterId input ->
  let key :=
    EvFetch (Reciter.id (selectReciter s)) (PlayFromInput.chapterId input) in
  let first := run api (playFrom input) s in
  In key (trace first) /\
  In key (trace (run api' (playFrom input) (final first))).
Proof.
  intros Hother. apply Z.eqb_neq in Hother.
  assert (Hneeds : forall file,
            needsFetch file (selectReciter s) (PlayFromInput.chapterId input)
              (PlayFromInput.reciterId input) = true).
  { intros [file |]; simpl; [| reflexivity].
    rewrite Hother. destruct (AudioFile.chapterId file =? _); reflexivity. }
  unfold playFrom. simpl. rewrite Hneeds. simpl.
  destruct (api _ _) as [file |]; simpl.
  - split; [auto |].
    change (selectReciter
              (rootReducer (rootReducer s (setAudioStatus Loading))
                 (setAudioFile (Some file)))) with (selectReciter s).
    rewrite Hother.
    destruct (AudioFile.chapterId file =? PlayFromInput.chapterId input);
      simpl; destruct (api' _ _); simpl; auto.
  - split; [auto |].
    change (selectReciter (rootReducer s (setAudioStatus Loading)))
      with (selectReciter s).
    rewrite Hneeds. simpl. destruct (api' _ _); simpl; auto.
Qed.

(** X12: once [loadAndPlay C] has stored the file of chapter [C],
    [playFrom] for chapter [C] and the current reciter fetches nothing: it
    sets the time and plays. *)
Theorem playFrom_after_loadAndPlay_does_not_fetch
    (api api' : Provider) (s : RootState) (C : Z) (file : AudioFile.t)
    (t : float) :
  loadedForChapter (selectAudioFile s) C = false ->
  api (Reciter.id (selectReciter s)) C = Resolves file ->
  AudioFile.chapterId file = C ->
  let s1 := final (run api (loadAndPlayAudioFile C) s) in
  trace (run api'
           (playFrom (PlayFromInput.Build t C (Reciter.id (selectReciter s))))
           s1) =
    [ EvTrigger (triggerSetCurrentTime (PrimFloat.div t 1000%float));
      EvTrigger triggerPlayAudio ].
Proof.
  intros Hloaded Hreply Hchapter. unfold loadAndPlayAudioFile. simpl.
  rewrite Hloaded. simpl.
  change (selectReciter (rootReducer s (setAudioStatus Loading)))
    with (selectReciter s).
  rewrite Hreply. simpl. unfold playFrom. simpl.
  unfold needsFetch, selectAudioFile, selectReciter. simpl.
  rewrite Hchapter, !Z.eqb_refl. reflexivity.
Qed.

(** X13: a call whose fetch has rejected can be made again: on the state
    that the failed call left, the same operation issues the same fetch. *)
Theorem failed_call_can_be_retried
    (api api' : Provider) (op : Operation) (s : RootState) (r c : Z) :
  In (EvFetch r c) (trace (run api (thunkOf op) s)) ->
  api r c = Rejects ->
  In (EvFetch r c)
     (trace (run api' (thunkOf op) (final (run api (thunkOf op) s)))).
Proof.
  intros Hin Hrej. revert Hin.
  by_cases op api s; intros Hin; fetch_inversion Hin;
    injection Hin as <- <-; try congruence.
  - change (selectAudioFile (rootReducer s (setAudioStatus Loading)))
      with (selectAudioFile s).
    rewrite Hloaded. simpl. destruct (api' _ _); simpl; auto.
  - rewrite Hfile. simpl. destruct (api' _ _); simpl; auto 6.
  - change (needsFetch
              (selectAudioFile (rootReducer s (setAudioStatus Loading)))
              (selectReciter (rootReducer s (setAudioStatus Loading))))
      with (needsFetch (selectAudioFile s) (selectReciter s)).
    rewrite Hneeds. simpl. destruct (api' _ _); simpl; auto.
Qed.

(** X14: when the fetch of [setReciterAndPause] rejects, the store holds
    the new reciter with the audio file of the former one, and
    [loadAndPlay] of that chapter plays this file without fetching. *)
Theorem failed_reciter_switch_plays_old_file
    (api api' : Provider) (s : RootState) (newReciter : Reciter.t)
    (current : AudioFile.t) :
  selectAudioFile s = Some current ->
  api (Reciter.id newReciter) (AudioFile.chapterId current) = Rejects ->
  let s1 := final (run api (setReciterAndPauseAudio newReciter) s) in
  selectReciter s1 = newReciter /\
  selectAudioFile s1 = Some current /\
  trace (run api' (loadAndPlayAudioFile (AudioFile.chapterId current)) s1)
    = [EvTrigger triggerPlayAudio].
Proof.
  intros Hfile Hrej. unfold setReciterAndPauseAudio. simpl.
  unfold selectAudioFile in *. simpl. rewrite Hfile. simpl.
  rewrite Hrej. simpl. split; [reflexivity |]. split; [exact Hfile |].
  unfold loadAndPlayAudioFile. simpl. unfold selectAudioFile. simpl.
  rewrite Hfile. simpl. rewrite Z.eqb_refl. reflexivity.
Qed.

(** X15: after a call that has dispatched anything, the feedback widget has
    the class of the open player, also when the fetch has rejected and when
    there was no audio file to switch the reciter of. *)
Theorem widget_open_after_any_dispatch
    (api : Provider) (op : Operation) (s : RootState) :
  let result := run api (thunkOf op) s in
  (0 < count isDispatch (trace result))%nat ->
  In styles.audioPlayerOpen (FeedbackWidget (final result)).
Proof.
  by_cases op api s; intros Hsome;
    try (exfalso; exact (Nat.lt_irrefl 0 Hsome));
    unfold FeedbackWidget, classNames, isHidden; simpl;
    match goal with
    | |- context [if ?b then _ else _] => destruct b; simpl; auto
    end.
Qed.

(** X20: [playFrom] compares the reciter it is asked for with the reciter
    of the store, not with the reciter the stored file was fetched for:
    after the reciter has been replaced by [setReciter], [playFrom] for the
    chapter of the stored file and the new reciter plays the stored file
    and fetches nothing. *)
Theorem playFrom_trusts_the_reciter_of_the_store
    (api : Provider) (s : RootState) (file : AudioFile.t) (C : Z)
    (other : Reciter.t) (t : float) :
  selectAudioFile s = Some file ->
  AudioFile.chapterId file = C ->
  let s' := rootReducer s (setReciter other) in
  run api (playFrom (PlayFromInput.Build t C (Reciter.id other))) s' =
    {| final := s';
       trace :=
         [ EvTrigger (triggerSetCurrentTime (PrimFloat.div t 1000%float));
           EvTrigger triggerPlayAudio ];
       outcome := Fulfilled |}.
Proof.
  intros Hfile Hchapter. unfold playFrom. simpl.
  unfold needsFetch, selectAudioFile, selectReciter in *. simpl.
  rewrite Hfile, Hchapter, !Z.eqb_refl. reflexivity.
Qed.

(** ** The event loop *)

Lemma orderly_quiet (t : Thunk unit) :
  forall s quiet, orderly t s false -> orderly t s quiet.
Proof.
  induction t as [u | e | k IH | a k IH | c k IH | r c k IH]; intros s quiet;
    simpl; auto.
  intros [Hsettled Hrest]. split; [| now apply IH].
  intros Hstatus. destruct (Hsettled Hstatus) as [_ Habsurd].
  discriminate Habsurd.
Qed.

Lemma thunkOf_orderly (op : Operation) (s : RootState) (quiet : bool) :
  settled s quiet -> orderly (thunkOf op) s quiet.
Proof.
  intros Hsettled.
  destruct op as [chapter | newReciter | input]; simpl.
  - unfold loadAndPlayAudioFile. simpl.
    destruct (loadedForChapter (selectAudioFile s) chapter); simpl; auto.
    unfold settled, selectAudioFileStatus, selectAudioFile, rootReducer.
    simpl. intuition congruence.
  - unfold setReciterAndPauseAudio. simpl.
    destruct (selectAudioFile _); simpl;
      unfold settled, selectAudioFileStatus, selectAudioFile, rootReducer;
      simpl; intuition congruence.
  - unfold playFrom. simpl.
    destruct (needsFetch _ _ _ _); simpl; auto.
    unfold settled, selectAudioFileStatus, selectAudioFile, rootReducer.
    simpl. intuition congruence.
Qed.

Lemma In_remove_nth {A : Type} (x : A) (l : list A) :
  forall n, In x (remove_nth n l) -> In x l.
Proof.
  induction l as [| y l IH]; intros [| n]; simpl; auto.
  intros [Heq | Hin]; auto.
  right. now apply (IH n).
Qed.

Lemma settled_loaded (s : RootState) (quiet : bool) :
  selectAudioFileStatus s <> NoFile -> settled s quiet.
Proof. intros Hstatus Habsurd. contradiction. Qed.

Lemma settled_frame (s : RootState) (a : Action) (quiet : bool) :
  settled s quiet ->
  match a with
  | setAudioFile _ | setAudioStatus _ | resetAudioFile => True
  | _ => settled (rootReducer s a) quiet
  end.
Proof.
  intros Hsettled. pose proof (rootReducer_status_file s a) as Hframe.
  destruct a; auto; destruct Hframe as [Hstatus Hfile];
    unfold settled; rewrite Hstatus, Hfile; exact Hsettled.
Qed.

Lemma invariant_tick (m m' : Machine) :
  invariant m -> tick m = Some m' -> invariant m'.
Proof.
  intros (Hsettled & Hparked & Hrunning). unfold tick.
  destruct m as [s running waiting events]; simpl in *.
  destruct running as [[u | e | k | a k | c k | r c k] |]; simpl in *;
    intros Heq; try discriminate Heq; injection Heq as <-;
    unfold invariant, quietOf in *; simpl in *.
  - auto.
  - auto.
  - auto.
  - destruct Hrunning as [Hsettled' Hrest]. auto.
  - auto.
  - destruct Hrunning as [Hstatus Hlater].
    split; [now apply settled_loaded |]. split; [| exact I].
    intros p Hin. apply in_app_or in Hin.
    destruct Hin as [Hin | [<- | []]]; simpl; auto.
Qed.

Lemma parked_loaded (s : RootState) (waiting : list Parked) (n : nat)
    (p : Parked) :
  settled s match waiting with [] => true | _ :: _ => false end ->
  nth_error waiting n = Some p ->
  selectAudioFileStatus s <> NoFile.
Proof.
  intros Hsettled Hnth Habsurd. destruct (Hsettled Habsurd) as [_ Hquiet].
  destruct waiting; [destruct n; discriminate Hnth | discriminate Hquiet].
Qed.

Lemma invariant_feed (m m' : Machine) (i : Input) :
  invariant m -> withoutFalseNoFile m i -> feed m i = Some m' ->
  invariant m'.
Proof.
  intros (Hsettled & Hparked & Hrunning) Hallowed. unfold feed.
  destruct m as [s running waiting events]; simpl in *.
  destruct running as [t |]; [discriminate |].
  unfold invariant, quietOf in *; simpl in *.
  destruct i as [a | op | n file | n]; simpl.
  - intros Heq. injection Heq as <-. simpl.
    split; [exact Hsettled |]. split; [exact Hparked |]. split; [| exact I].
    pose proof (settled_frame s a _ Hsettled) as Hframe.
    destruct a as [| | | [file |] | [| |] | | |]; simpl in Hallowed;
      try exact Hframe.
    + now apply settled_loaded.
    + intros Hstatus. destruct (Hsettled Hstatus) as [_ Hquiet].
      split; [reflexivity | exact Hquiet].
    + apply settled_loaded. discriminate.
    + apply settled_loaded. discriminate.
    + destruct Hallowed as [Hfile ->]. intros _. split; [exact Hfile |].
      reflexivity.
    + subst waiting. intros _. split; reflexivity.
  - intros Heq. injection Heq as <-. simpl.
    split; [exact Hsettled |]. split; [exact Hparked |].
    now apply thunkOf_orderly.
  - destruct (nth_error waiting n) as [p |] eqn:Hnth; [| discriminate].
    intros Heq. injection Heq as <-. simpl.
    pose proof (parked_loaded s waiting n p Hsettled Hnth) as Hstatus.
    split; [now apply settled_loaded |]. split.
    + intros q Hin. apply In_remove_nth in Hin. auto.
    + apply orderly_quiet. apply (Hparked p); auto.
      eapply nth_error_In. exact Hnth.
  - destruct (nth_error waiting n) as [p |] eqn:Hnth; [| discriminate].
    intros Heq. injection Heq as <-. simpl.
    pose proof (parked_loaded s waiting n p Hsettled Hnth) as Hstatus.
    split; [now apply settled_loaded |]. split; [| exact I].
    intros q Hin. apply In_remove_nth in Hin. auto.
Qed.

Lemma reachable_invariant (m : Machine) :
  reachable withoutFalseNoFile m -> invariant m.
Proof.
  induction 1 as [| m m' _ IH Htick | m i m' _ IH Hallowed Hfeed].
  - split; [intros _; split; reflexivity |].
    split; [intros p [] | exact I].
  - eapply invariant_tick; eauto.
  - eapply invariant_feed; eauto.
Qed.

(** C2 (amended): every machine the page can be in, between any two
    effects of a thunk too, has no audio file and no outstanding fetch
    whenever its status is [NoFile], as long as no component dispatches a
    file while the status is [NoFile], or the status [NoFile] while there is
    a file or an outstanding fetch, or [resetAudioFile] while a fetch is
    outstanding.  Everything else may happen in any order: the three
    thunks, the other actions, [setAudioStatus] with [Ready] or [Loading],
    and the fetches settling.  (The converse does not hold: the status is
    [Loading] while the first file is fetched.) *)
Theorem NoFile_implies_no_audio_file (m : Machine) :
  reachable withoutFalseNoFile m ->
  selectAudioFileStatus (store m) = NoFile ->
  selectAudioFile (store m) = None /\ parked m = [].
Proof.
  intros Hreach Hstatus.
  destruct (reachable_invariant m Hreach) as (Hsettled & _ & _).
  destruct (Hsettled Hstatus) as [Hfile Hquiet]. split; [exact Hfile |].
  unfold quietOf in Hquiet. destruct (parked m); [reflexivity | discriminate].
Qed.

(** The restriction on the inputs is as narrow as it can be: an input that
    [withoutFalseNoFile] refuses breaks the property once it is carried
    out. *)
Lemma refused_input_breaks_NoFile (m m1 m2 : Machine) (i : Input) :
  ~ withoutFalseNoFile m i ->
  feed m i = Some m1 ->
  tick m1 = Some m2 ->
  ~ (selectAudioFileStatus (store m2) = NoFile ->
     selectAudioFile (store m2) = None /\ parked m2 = []).
Proof.
  intros Hrefused. unfold feed.
  destruct m as [s running waiting events]; simpl in *.
  destruct running as [t |]; [discriminate |].
  destruct i as [a | op | n file | n]; simpl in Hrefused;
    try (exfalso; apply Hrefused; exact I).
  intros Hfeed. injection Hfeed as <-. unfold tick. simpl.
  intros Htick. injection Htick as <-. simpl.
  destruct a as [| | | [file |] | [| |] | | |]; simpl in Hrefused;
    try (exfalso; apply Hrefused; exact I); intros Hkept.
  - destruct (selectAudioFileStatus s) eqn:Hstatus;
      try (apply Hrefused; discriminate).
    destruct (Hkept Hstatus) as [Habsurd _]. discriminate Habsurd.
  - apply Hrefused. exact (Hkept eq_refl).
  - apply Hrefused. exact (proj2 (Hkept eq_refl)).
Qed.

(** *** What the code of the slice is made of *)

Section Shapes.

Variable ok : Action -> Prop.
Variable P : RootState -> Prop.
Hypothesis ok_file : forall file, ok (setAudioFile (Some file)).
Hypothesis ok_loading : ok (setAudioStatus Loading).
Hypothesis ok_reciter : forall r, ok (setReciter r).
Hypothesis P_boot : P initialRootState.
Hypothesis P_step : forall s a, ok a -> P s -> P (rootReducer s a).

Lemma triggersOnly_shaped (t : Thunk unit) : triggersOnly t -> shaped ok t.
Proof.
  induction t as [u | e | k IH | a k IH | c k IH | r c k IH]; simpl;
    try contradiction; auto.
Qed.

Lemma storesThen_shaped (file : AudioFile.t) (t : Thunk unit) :
  storesThen file t -> shaped ok t.
Proof.
  destruct t as [u | e | k | a k | c k | r c k]; simpl; try contradiction.
  destruct a as [| | | [file' |] | | | |]; try contradiction.
  intros [_ Htail]. split; [apply ok_file | now apply triggersOnly_shaped].
Qed.

Lemma thunkOf_shaped (op : Operation) : shaped ok (thunkOf op).
Proof.
  destruct op as [chapter | newReciter | input]; simpl.
  - intros s. unfold loadAndPlayAudioFile. simpl.
    destruct (loadedForChapter _ _); simpl; auto.
  - unfold setReciterAndPauseAudio. simpl.
    split; [exact ok_loading |]. split; [apply ok_reciter |].
    intros s. destruct (selectAudioFile s); simpl; auto.
  - intros s. unfold playFrom. simpl.
    destruct (needsFetch _ _ _ _); simpl; auto.
Qed.

Lemma tidy_tick (m m' : Machine) :
  tidy ok P m -> tick m = Some m' -> tidy ok P m'.
Proof.
  intros (HP & Hparked & Hrunning). unfold tick.
  destruct m as [s running waiting events]; simpl in *.
  destruct running as [[u | e | k | a k | c k | r c k] |]; simpl in *;
    intros Heq; try discriminate Heq; injection Heq as <-;
    unfold tidy; simpl; auto.
  - destruct Hrunning as [Hok Hrest]. auto.
  - split; [exact HP |]. split; [| exact I].
    intros p Hin. apply in_app_or in Hin.
    destruct Hin as [Hin | [<- | []]]; simpl; auto.
Qed.

Lemma tidy_feed (m m' : Machine) (i : Input) :
  tidy ok P m -> dispatching ok m i -> feed m i = Some m' -> tidy ok P m'.
Proof.
  intros (HP & Hparked & Hrunning) Hallowed. unfold feed.
  destruct m as [s running waiting events]; simpl in *.
  destruct running as [t |]; [discriminate |].
  unfold tidy; simpl.
  destruct i as [a | op | n file | n]; simpl in *.
  - intros Heq. injection Heq as <-. simpl. auto.
  - intros Heq. injection Heq as <-. simpl.
    split; [exact HP |]. split; [exact Hparked |]. apply thunkOf_shaped.
  - destruct (nth_error waiting n) as [p |] eqn:Hnth; [| discriminate].
    intros Heq. injection Heq as <-. simpl.
    split; [exact HP |]. split.
    + intros q Hin. apply In_remove_nth in Hin. auto.
    + apply (storesThen_shaped file). apply Hparked.
      eapply nth_error_In. exact Hnth.
  - destruct (nth_error waiting n) as [p |] eqn:Hnth; [| discriminate].
    intros Heq. injection Heq as <-. simpl.
    split; [exact HP |]. split; [| exact I].
    intros q Hin. apply In_remove_nth in Hin. auto.
Qed.

Lemma reachable_tidy (m : Machine) :
  reachable (dispatching ok) m -> tidy ok P m.
Proof.
  induction 1 as [| m m' _ IH Htick | m i m' _ IH Hallowed Hfeed].
  - split; [exact P_boot |]. split; [intros p [] | exact I].
  - eapply tidy_tick; eauto.
  - eapply tidy_feed; eauto.
Qed.

End Shapes.

Lemma reachable_weaken (allowed allowed' : Machine -> Input -> Prop)
    (m : Machine) :
  (forall m0 i, allowed m0 i -> allowed' m0 i) ->
  reachable allowed m -> reachable allowed' m.
Proof.
  intros Hweaker.
  induction 1 as [| m m' _ IH Htick | m i m' _ IH Hallowed Hfeed].
  - apply reach_boot.
  - eapply reach_tick; eauto.
  - eapply reach_feed; eauto.
Qed.

(** X16: the status [Ready] comes from outside the slice.  As long as no
    component dispatches [setAudioStatus Ready], no state of the page has
    the status [Ready], whatever is called and dispatched and in whatever
    order the fetches settle. *)
Theorem Ready_only_by_direct_dispatch (m : Machine) :
  reachable (dispatching notReady) m ->
  selectAudioFileStatus (store m) <> Ready.
Proof.
  intros Hreach.
  apply (reachable_tidy notReady
           (fun s => selectAudioFileStatus s <> Ready)) in Hreach.
  - exact (proj1 Hreach).
  - intros file. discriminate.
  - discriminate.
  - intros r. discriminate.
  - discriminate.
  - intros s a Hok Hstatus. unfold notReady in Hok.
    destruct a as [| | | | status | | |]; simpl; try exact Hstatus;
      [| discriminate].
    intros Heq. apply Hok. now rewrite <- Heq.
Qed.

(** X17: the three flags come from outside the slice too.  As long as no
    component dispatches their setters, [isPlaying] and
    [isMobileMinimizedForScrolling] stay [false] and [enableAutoScrolling]
    stays [true], whatever thunk is called: calling [play] does not make
    [isPlaying] true. *)
Theorem flags_only_by_direct_dispatch (m : Machine) :
  reachable (dispatching notAFlag) m ->
  selectIsPlaying (store m) = false /\
  selectIsMobileMinimizedForScrolling (store m) = false /\
  selectEnableAutoScrolling (store m) = true.
Proof.
  intros Hreach.
  apply (reachable_tidy notAFlag
           (fun s =>
              selectIsPlaying s = false /\
              selectIsMobileMinimizedForScrolling s = false /\
              selectEnableAutoScrolling s = true)) in Hreach.
  - exact (proj1 Hreach).
  - intros file. exact I.
  - exact I.
  - intros r. exact I.
  - repeat split.
  - intros s a Hok Hflags. destruct a; simpl in *; try contradiction;
      exact Hflags.
Qed.

Lemma settle_triggersOnly (t : Thunk unit) :
  forall s waiting events,
    triggersOnly t ->
    store (settle t s waiting events) = s /\
    parked (settle t s waiting events) = waiting /\
    running (settle t s waiting events) = None.
Proof.
  induction t as [u | e | k IH | a k IH | c k IH | r c k IH];
    intros s waiting events; simpl; try contradiction; auto.
Qed.

Lemma length_remove_nth {A : Type} (l : list A) :
  forall n x,
    nth_error l n = Some x ->
    (List.length (remove_nth n l) + 1 = List.length l)%nat.
Proof.
  induction l as [| y l IH]; intros [| n] x; simpl; try discriminate.
  - intros _. apply Nat.add_1_r.
  - intros Hnth. rewrite (IH n x Hnth). reflexivity.
Qed.

(** X18: a fetch that settles takes its entry off the outstanding fetches
    and adds none.  When it resolves, the store gets its file, whatever has
    happened since the fetch was issued, and changes in nothing else; when
    it rejects, the store does not change and nothing is logged. *)
Theorem settled_fetch_stores_its_file_unchecked
    (m m' : Machine) (n : nat) :
  reachable anything m ->
  (forall file,
     react m (FetchResolved n file) = Some m' ->
     store m' = rootReducer (store m) (setAudioFile (Some file)) /\
     running m' = None /\
     (List.length (parked m') + 1 = List.length (parked m))%nat) /\
  (react m (FetchRejected n) = Some m' ->
     store m' = store m /\ log m' = log m /\
     running m' = None /\
     (List.length (parked m') + 1 = List.length (parked m))%nat).
Proof.
  intros Hreach.
  assert (Htidy : tidy (fun _ => True) (fun _ => True) m).
  { apply reachable_tidy; auto.
    eapply reachable_weaken; [| exact Hreach].
    intros m0 [a | op | k file | k]; simpl; auto. }
  destruct Htidy as (_ & Hparked & _).
  unfold react, feed. destruct m as [s running waiting events]; simpl in *.
  destruct running as [t |]; [split; [intros file |]; discriminate |].
  destruct (nth_error waiting n) as [p |] eqn:Hnth;
    [| split; [intros file |]; discriminate].
  pose proof (length_remove_nth waiting n p Hnth) as Hlength.
  split.
  - intros file. simpl.
    pose proof (Hparked p (nth_error_In _ _ Hnth) file) as Hstores.
    destruct (resume p file) as [u | e | k | a k | c k | r c k];
      simpl in Hstores; try contradiction.
    destruct a as [| | | [file' |] | | | |]; try contradiction.
    destruct Hstores as [-> Htail]. simpl.
    destruct (settle_triggersOnly k
                (rootReducer s (setAudioFile (Some file)))
                (remove_nth n waiting)
                (events ++ [EvDispatch (setAudioFile (Some file))]) Htail)
      as (Hstore & Hwaiting & Hidle).
    intros Heq. injection Heq as <-. rewrite Hstore, Hwaiting. auto.
  - simpl. intros Heq. injection Heq as <-. simpl. auto.
Qed.

(** X19: the race between two calls.  On an idle page without outstanding
    fetch, [loadAndPlay a] and then [loadAndPlay b], neither chapter being
    loaded: when the fetch of [b] resolves first and the fetch of [a] last,
    the store ends with the file of [a], the chapter asked for first. *)
Theorem out_of_order_fetches_keep_the_first_request
    (m : Machine) (a b : Z) (fileA fileB : AudioFile.t) :
  running m = None ->
  parked m = [] ->
  loadedForChapter (selectAudioFile (store m)) a = false ->
  loadedForChapter (selectAudioFile (store m)) b = false ->
  exists m',
    script m [ Called (loadAndPlay a); Called (loadAndPlay b);
               FetchResolved 1 fileB; FetchResolved 0 fileA ] = Some m' /\
    selectAudioFile (store m') = Some fileA /\
    parked m' = [] /\
    log m' =
      log m ++
      [ EvDispatch (setAudioStatus Loading);
        EvFetch (Reciter.id (selectReciter (store m))) a;
        EvDispatch (setAudioStatus Loading);
        EvFetch (Reciter.id (selectReciter (store m))) b;
        EvDispatch (setAudioFile (Some fileB)); EvTrigger triggerPlayAudio;
        EvDispatch (setAudioFile (Some fileA)); EvTrigger triggerPlayAudio ].
Proof.
  destruct m as [s running waiting events]. simpl.
  intros -> -> Ha Hb.
  unfold script, react, feed. simpl.
  unfold loadAndPlayAudioFile. simpl. rewrite Ha. simpl.
  change (selectAudioFile (rootReducer s (setAudioStatus Loading)))
    with (selectAudioFile s).
  rewrite Hb. simpl.
  eexists. split; [reflexivity |]. simpl.
  split; [reflexivity |]. split; [reflexivity |].
  rewrite <- !app_assoc. reflexivity.
Qed.

(** *** A call that nothing interrupts

    [run] is what the event loop does when the fetch of the thunk settles
    before anything else happens. *)

Lemma nth_error_last {A : Type} (l : list A) (x : A) :
  nth_error (l ++ [x]) (List.length l) = Some x.
Proof. induction l as [| y l IH]; simpl; auto. Qed.

Lemma remove_nth_last {A : Type} (l : list A) (x : A) :
  remove_nth (List.length l) (l ++ [x]) = l.
Proof. induction l as [| y l IH]; simpl; [| rewrite IH]; reflexivity. Qed.

Lemma run_reachable (api : Provider) (t : Thunk unit) :
  forall m,
    reachable anything m ->
    running m = Some t ->
    exists m',
      reachable anything m' /\
      running m' = None /\
      parked m' = parked m /\
      store m' = final (run api t (store m)) /\
      log m' = log m ++ trace (run api t (store m)).
Proof.
  induction t as [u | e | k IH | a k IH | c k IH | r c k IH];
    intros [s running waiting events] Hreach Hrunning;
    simpl in Hrunning; subst running; simpl.
  - eexists. split; [eapply reach_tick; [exact Hreach | reflexivity] |].
    simpl. rewrite app_nil_r. auto.
  - eexists. split; [eapply reach_tick; [exact Hreach | reflexivity] |].
    simpl. rewrite app_nil_r. auto.
  - destruct (IH s (mkMachine s (Some (k s)) waiting events))
      as (m' & Hm' & Hidle & Hparked & Hstore & Hlog);
      [eapply reach_tick; [exact Hreach | reflexivity] | reflexivity |].
    exists m'. auto.
  - destruct (IH (mkMachine (rootReducer s a) (Some k) waiting
                    (events ++ [EvDispatch a])))
      as (m' & Hm' & Hidle & Hparked & Hstore & Hlog);
      [eapply reach_tick; [exact Hreach | reflexivity] | reflexivity |].
    exists m'. simpl in *. rewrite Hlog, <- app_assoc. auto.
  - destruct (IH (mkMachine s (Some k) waiting (events ++ [EvTrigger c])))
      as (m' & Hm' & Hidle & Hparked & Hstore & Hlog);
      [eapply reach_tick; [exact Hreach | reflexivity] | reflexivity |].
    exists m'. simpl in *. rewrite Hlog, <- app_assoc. auto.
  - assert (Hparks :
      reachable anything
        (mkMachine s None (waiting ++ [mkParked r c k])
           (events ++ [EvFetch r c])))
      by (eapply reach_tick; [exact Hreach | reflexivity]).
    destruct (api r c) as [file |]; simpl.
    + destruct (IH file (mkMachine s (Some (k file)) waiting
                           (events ++ [EvFetch r c])))
        as (m' & Hm' & Hidle & Hparked & Hstore & Hlog);
        [| reflexivity |].
      * eapply reach_feed with (i := FetchResolved (List.length waiting) file);
          [exact Hparks | exact I |].
        unfold feed. simpl. rewrite nth_error_last, remove_nth_last.
        reflexivity.
      * exists m'. simpl in *. rewrite Hlog, <- app_assoc. auto.
    + eexists. split.
      * eapply reach_tick.
        -- eapply reach_feed with (i := FetchRejected (List.length waiting));
             [exact Hparks | exact I |].
           unfold feed. simpl. rewrite nth_error_last, remove_nth_last.
           reflexivity.
        -- reflexivity.
      * simpl. auto.
Qed.

(** *** Scripts of inputs *)

Lemma settle_reachable (allowed : Machine -> Input -> Prop) (t : Thunk unit) :
  forall m,
    reachable allowed m ->
    running m = Some t ->
    reachable allowed (settle t (store m) (parked m) (log m)).
Proof.
  induction t as [u | e | k IH | a k IH | c k IH | r c k IH];
    intros [s running waiting events] Hreach Hrunning;
    simpl in Hrunning; subst running; simpl.
  - eapply reach_tick; [exact Hreach | reflexivity].
  - eapply reach_tick; [exact Hreach | reflexivity].
  - apply (IH s (mkMachine s (Some (k s)) waiting events));
      [eapply reach_tick; [exact Hreach | reflexivity] | reflexivity].
  - apply (IH (mkMachine (rootReducer s a) (Some k) waiting
                 (events ++ [EvDispatch a])));
      [eapply reach_tick; [exact Hreach | reflexivity] | reflexivity].
  - apply (IH (mkMachine s (Some k) waiting (events ++ [EvTrigger c])));
      [eapply reach_tick; [exact Hreach | reflexivity] | reflexivity].
  - eapply reach_tick; [exact Hreach | reflexivity].
Qed.

Lemma react_reachable (allowed : Machine -> Input -> Prop)
    (m m' : Machine) (i : Input) :
  reachable allowed m -> allowed m i -> react m i = Some m' ->
  reachable allowed m'.
Proof.
  intros Hreach Hallowed. unfold react.
  destruct (feed m i) as [m1 |] eqn:Hfeed; [| discriminate].
  assert (Hm1 : reachable allowed m1) by (eapply reach_feed; eauto).
  destruct (running m1) as [t |] eqn:Hrunning; intros Heq;
    injection Heq as <-; [| exact Hm1].
  now apply settle_reachable.
Qed.

Lemma script_reachable (allowed : Machine -> Input -> Prop)
    (inputs : list Input) :
  forall m m',
    reachable allowed m -> permitted allowed m inputs ->
    script m inputs = Some m' -> reachable allowed m'.
Proof.
  induction inputs as [| i rest IH]; intros m m' Hreach Hpermitted; simpl.
  - intros Heq. injection Heq as <-. exact Hreach.
  - simpl in Hpermitted. destruct Hpermitted as [Hallowed Hrest].
    destruct (react m i) as [m1 |] eqn:Hreact; [| discriminate].
    apply IH; [| exact Hrest].
    eapply react_reachable; eauto.
Qed.

End Slice.

(** * The properties on the scenarios of the specification *)

(** ** Counterexamples *)

(** C1 as stated fails: from the initial state, [loadAndPlay 2] fetches
    chapter 2 for the default reciter, the fetch resolves with [af2], and
    the resulting state holds [af2] with the status [Loading], not
    [Ready]. *)
Lemma loadAndPlay_success_is_not_Ready :
  In (EvFetch 7 2)
     (trace (run defaultReciter library (thunkOf (loadAndPlay 2))
               (initialRootState defaultReciter))) /\
  library 7 2 = Resolves af2 /\
  selectAudioFileStatus
    (final (run defaultReciter library (thunkOf (loadAndPlay 2))
              (initialRootState defaultReciter))) = Loading /\
  ~ (selectAudioFile
       (final (run defaultReciter library (thunkOf (loadAndPlay 2))
                 (initialRootState defaultReciter))) = Some af2 /\
     selectAudioFileStatus
       (final (run defaultReciter library (thunkOf (loadAndPlay 2))
                 (initialRootState defaultReciter))) = Ready).
Proof.
  split; [simpl; auto |]. split; [reflexivity |]. split; [reflexivity |].
  intros [_ Hready]. discriminate Hready.
Qed.

(** C2 as stated fails: after [loadAndPlay 2] on the initial state, while
    the fetch is outstanding, the page is in a state without audio file
    whose status is [Loading], not [NoFile]. *)
Lemma Loading_without_audio_file_is_reachable :
  exists m,
    afterInputs defaultReciter [Called (loadAndPlay 2)] = Some m /\
    reachable defaultReciter anything m /\
    selectAudioFile (store m) = None /\
    selectAudioFileStatus (store m) = Loading /\
    ~ noFileIffAbsent (store m).
Proof.
  eexists. split; [reflexivity |]. split; [| split; [| split]].
  - eapply (script_reachable defaultReciter anything
              [Called (loadAndPlay 2)] (boot defaultReciter));
      [apply reach_boot | exact (conj I I) | reflexivity].
  - reflexivity.
  - reflexivity.
  - intros [_ Hback]. specialize (Hback eq_refl). discriminate Hback.
Qed.

(** Each restriction of the amended C2 is needed.  A file that arrives
    after [resetAudioFile], or after [setAudioStatus NoFile], is stored
    under the status [NoFile]; [setAudioStatus NoFile] on a store with a
    file and [setAudioFile] with a file on a store with the status [NoFile]
    change one of the two fields without touching the other.  And what the
    restrictions let through is more than the thunks: a store with a file
    and the status [Ready] is among the states that the amended C2 covers. *)
Example stale_fetch_after_setAudioStatus_NoFile :
  exists m,
    afterInputs defaultReciter
      [Called (loadAndPlay 2); Dispatched (setAudioStatus NoFile);
       FetchResolved 0 af2] = Some m /\
    selectAudioFileStatus (store m) = NoFile /\
    selectAudioFile (store m) = Some af2.
Proof. eexists. repeat split. Qed.

Example Ready_with_file_is_covered :
  exists m,
    afterInputs defaultReciter
      [Called (loadAndPlay 2); FetchResolved 0 af2;
       Dispatched (setAudioStatus Ready);
       Dispatched (setAudioFile (Some af5))] = Some m /\
    reachable defaultReciter withoutFalseNoFile m /\
    selectAudioFileStatus (store m) = Ready /\
    selectAudioFile (store m) = Some af5.
Proof.
  eexists. split; [reflexivity |]. split; [| split; reflexivity].
  eapply (script_reachable defaultReciter withoutFalseNoFile
            [Called (loadAndPlay 2); FetchResolved 0 af2;
             Dispatched (setAudioStatus Ready);
             Dispatched (setAudioFile (Some af5))] (boot defaultReciter)).
  - apply reach_boot.
  - simpl. repeat split. discriminate.
  - reflexivity.
Qed.

Example stale_fetch_after_reset :
  exists m,
    afterInputs defaultReciter
      [Called (loadAndPlay 2); Dispatched resetAudioFile;
       FetchResolved 0 af2] = Some m /\
    selectAudioFileStatus (store m) = NoFile /\
    selectAudioFile (store m) = Some af2.
Proof. eexists. repeat split. Qed.

Example setAudioStatus_alone :
  exists m,
    afterInputs defaultReciter
      [Called (loadAndPlay 2); FetchResolved 0 af2;
       Dispatched (setAudioStatus NoFile)] = Some m /\
    selectAudioFileStatus (store m) = NoFile /\
    selectAudioFile (store m) = Some af2.
Proof. eexists. repeat split. Qed.

Example setAudioFile_alone :
  exists m,
    afterInputs defaultReciter [Dispatched (setAudioFile (Some af2))]
      = Some m /\
    selectAudioFileStatus (store m) = NoFile /\
    selectAudioFile (store m) = Some af2.
Proof. eexists. repeat split. Qed.

(** ** The scenarios of the specification, as the code runs them *)

Example scenario_loadAndPlay_2 :
  run defaultReciter library (loadAndPlayAudioFile 2)
    (initialRootState defaultReciter) =
  {| final :=
       {| audioPlayerState :=
            {| isPlaying := false; reciter := defaultReciter;
               audioFile := Some af2; audioFileStatus := Loading;
               isMobileMinimizedForScrolling := false;
               enableAutoScrolling := true |} |};
     trace :=
       [ EvDispatch (setAudioStatus Loading); EvFetch 7 2;
         EvDispatch (setAudioFile (Some af2)); EvTrigger triggerPlayAudio ];
     outcome := Fulfilled |}.
Proof. reflexivity. Qed.

Example scenario_setReciterAndPause :
  run defaultReciter library (setReciterAndPauseAudio reciter2)
    chapter5Loaded =
  {| final :=
       {| audioPlayerState :=
            {| isPlaying := true; reciter := reciter2;
               audioFile := Some af5'; audioFileStatus := Loading;
               isMobileMinimizedForScrolling := false;
               enableAutoScrolling := true |} |};
     trace :=
       [ EvDispatch (setAudioStatus Loading); EvTrigger triggerPauseAudio;
         EvDispatch (setReciter reciter2); EvFetch 2 5;
         EvDispatch (setAudioFile (Some af5')) ];
     outcome := Fulfilled |}.
Proof. reflexivity. Qed.

Example scenario_playFrom_seconds :
  trace
    (run defaultReciter library
       (playFrom
          {| PlayFromInput.timestamp := 2500%float;
             PlayFromInput.chapterId := 5;
             PlayFromInput.reciterId := 1 |})
       chapter5Loaded) =
  [ EvTrigger (triggerSetCurrentTime 2.5%float); EvTrigger triggerPlayAudio ].
Proof. reflexivity. Qed.

(** The widget while chapter 2 is being fetched, and at the start. *)
Example widget_while_loading :
  option_map (fun m => FeedbackWidget (store m))
    (afterInputs defaultReciter [Called (loadAndPlay 2)]) =
    Some [styles.container; styles.audioPlayerOpen] /\
  FeedbackWidget (initialRootState defaultReciter) = [styles.container].
Proof. split; reflexivity. Qed.

(** ** The theorems at work *)

(** C1 at the first scenario: chapter 2 is fetched for the default reciter,
    and stored with the status [Loading]. *)
Lemma fetch_success_at_scenario_1 :
  let result :=
    run defaultReciter library (thunkOf (loadAndPlay 2))
      (initialRootState defaultReciter) in
  outcome result = Fulfilled /\
  selectAudioFile (final result) = Some af2 /\
  selectAudioFileStatus (final result) = Loading /\
  ~ In (EvDispatch (setAudioStatus Ready)) (trace result).
Proof.
  apply (fetch_success_stores_file_status_stays_Loading defaultReciter
           library (loadAndPlay 2) (initialRootState defaultReciter) 7 2 af2).
  - simpl. right. left. reflexivity.
  - reflexivity.
Defined.

(** C2 after a file has been loaded, marked [Ready] by a component,
    replaced by hand and reset: the status is [NoFile] again, and there is
    neither a file nor an outstanding fetch. *)
Lemma NoFile_after_load_and_reset :
  exists m,
    afterInputs defaultReciter
      [Called (loadAndPlay 2); FetchResolved 0 af2;
       Dispatched (setAudioStatus Ready);
       Dispatched (setAudioFile (Some af5));
       Dispatched resetAudioFile] = Some m /\
    selectAudioFileStatus (store m) = NoFile /\
    selectAudioFile (store m) = None /\ parked m = [].
Proof.
  eexists. split; [reflexivity |]. split; [reflexivity |].
  apply (NoFile_implies_no_audio_file defaultReciter).
  - eapply (script_reachable defaultReciter withoutFalseNoFile
              [Called (loadAndPlay 2); FetchResolved 0 af2;
               Dispatched (setAudioStatus Ready);
               Dispatched (setAudioFile (Some af5));
               Dispatched resetAudioFile] (boot defaultReciter)).
    + apply reach_boot.
    + simpl. repeat split. discriminate.
    + reflexivity.
  - reflexivity.
Defined.

(** C3 at the second scenario's store: chapter 5 is loaded, and
    [loadAndPlay 5] only plays. *)
Lemma loadAndPlay_5_when_loaded :
  let result :=
    run defaultReciter offline (loadAndPlayAudioFile 5) chapter5Loaded in
  count isFetch (trace result) = 0%nat /\
  count isDispatch (trace result) = 0%nat /\
  final result = chapter5Loaded /\
  count isPlay (trace result) = 1%nat /\
  trace result = [EvTrigger triggerPlayAudio] /\
  outcome result = Fulfilled.
Proof.
  apply (loadAndPlay_same_chapter_plays_only defaultReciter offline
           chapter5Loaded 5 af5); reflexivity.
Defined.


(** C5 on both branches: chapter 5 loaded for reciter 1 and asked for, and
    chapter 2 asked for, which is fetched first. *)
Lemma playFrom_at_2500_ms :
  trace (run defaultReciter library
           (playFrom (PlayFromInput.Build 2500%float 5 1)) chapter5Loaded) =
    [ EvTrigger (triggerSetCurrentTime 2.5%float);
      EvTrigger triggerPlayAudio ] /\
  trace (run defaultReciter library
           (playFrom (PlayFromInput.Build 2500%float 2 1)) chapter5Loaded) =
    [ EvDispatch (setAudioStatus Loading); EvFetch 1 2;
      EvDispatch (setAudioFile (Some af2));
      EvTrigger (triggerSetCurrentTime 2.5%float);
      EvTrigger triggerPlayAudio ].
Proof.
  split.
  - exact (proj1 (playFrom_sets_time_before_play defaultReciter library
                    (PlayFromInput.Build 2500%float 5 1) chapter5Loaded)
             eq_refl).
  - exact (proj1 (proj2 (playFrom_sets_time_before_play defaultReciter
                           library (PlayFromInput.Build 2500%float 2 1)
                           chapter5Loaded))
             af2 eq_refl eq_refl).
Defined.

(** C6 at the second scenario with a provider that fails: the new reciter
    and the status [Loading] stay. *)
Lemma setReciterAndPause_offline :
  let result :=
    run defaultReciter offline (thunkOf (setReciterAndPause reciter2))
      chapter5Loaded in
  outcome result = RejectedWith FetchError /\
  selectAudioFileStatus (final result) = Loading /\
  selectAudioFile (final result) = Some af5 /\
  selectReciter (final result) = reciter2.
Proof.
  destruct (fetch_rejection_leaves_Loading defaultReciter offline
              (setReciterAndPause reciter2) chapter5Loaded 2 5)
    as (Houtcome & Hstatus & Hfile & _ & Hreciter).
  - simpl. do 3 right. left. reflexivity.
  - reflexivity.
  - split; [exact Houtcome |]. split; [exact Hstatus |].
    split; [exact Hfile |]. exact (Hreciter reciter2 eq_refl).
Defined.

(** C9 at the second scenario's store, and from the start: chapter 5 is
    fetched for reciter 1, the reciter becomes reciter 2, and
    [loadAndPlay 5] plays the file of reciter 1. *)
Lemma loadAndPlay_5_after_reciter_change :
  run defaultReciter library (loadAndPlayAudioFile 5)
    (rootReducer defaultReciter chapter5Loaded (setReciter reciter2)) =
    {| final :=
         rootReducer defaultReciter chapter5Loaded (setReciter reciter2);
       trace := [EvTrigger triggerPlayAudio];
       outcome := Fulfilled |} /\
  selectAudioFile
    (final
       (run defaultReciter library (loadAndPlayAudioFile 5)
          (rootReducer defaultReciter
             (final (run defaultReciter library (loadAndPlayAudioFile 5)
                       (rootReducer defaultReciter
                          (initialRootState defaultReciter)
                          (setReciter reciter1))))
             (setReciter reciter2)))) = Some af5.
Proof.
  split.
  - exact (proj1 (loadAndPlay_skip_ignores_reciter defaultReciter library
                    chapter5Loaded 5 af5 reciter2) eq_refl eq_refl).
  - exact (proj2 (proj2 (proj2
             (proj2 (loadAndPlay_skip_ignores_reciter defaultReciter library
                       (rootReducer defaultReciter
                          (initialRootState defaultReciter)
                          (setReciter reciter1))
                       5 af5 reciter2) eq_refl eq_refl eq_refl)))).
Defined.

(** ** The further properties at work *)

(** X1 on [resetAudioFile]: the reciter is kept, and the audio file it
    leaves is the same from the loaded store and from the initial state. *)
Lemma resetAudioFile_writes_the_file_only :
  agreeOn Freciter
    (reducer defaultReciter (audioPlayerState chapter5Loaded) resetAudioFile)
    (audioPlayerState chapter5Loaded) /\
  agreeOn FaudioFile
    (reducer defaultReciter (audioPlayerState chapter5Loaded) resetAudioFile)
    (reducer defaultReciter (initialState defaultReciter) resetAudioFile).
Proof.
  split.
  - apply (reducer_writes_exactly defaultReciter resetAudioFile Freciter
             (audioPlayerState chapter5Loaded)
             (initialState defaultReciter)).
    simpl. intros [H | [H | []]]; discriminate H.
  - apply (reducer_writes_exactly defaultReciter resetAudioFile FaudioFile
             (audioPlayerState chapter5Loaded)
             (initialState defaultReciter)).
    simpl. auto.
Defined.

(** X2 on [setIsPlaying] and [resetAudioFile]. *)
Lemma setIsPlaying_commutes_with_resetAudioFile :
  reducer defaultReciter
    (reducer defaultReciter (audioPlayerState chapter5Loaded)
       (setIsPlaying false))
    resetAudioFile =
  reducer defaultReciter
    (reducer defaultReciter (audioPlayerState chapter5Loaded) resetAudioFile)
    (setIsPlaying false).
Proof.
  apply (reducer_commutes_on_disjoint_writes defaultReciter
           (setIsPlaying false) resetAudioFile
           (audioPlayerState chapter5Loaded)).
  simpl. intros f [<- | []] [H | [H | []]]; discriminate H.
Defined.

(** X3 on [setAudioFile] followed by [resetAudioFile]. *)
Lemma resetAudioFile_erases_setAudioFile :
  reducer defaultReciter
    (reducer defaultReciter (audioPlayerState chapter5Loaded)
       (setAudioFile (Some af2)))
    resetAudioFile =
  reducer defaultReciter (audioPlayerState chapter5Loaded) resetAudioFile.
Proof.
  apply (reducer_absorbs_covered_writes defaultReciter
           (setAudioFile (Some af2)) resetAudioFile
           (audioPlayerState chapter5Loaded)).
  simpl. intros f [<- | []]. simpl. auto.
Defined.

(** X10 on the store with chapter 5 loaded for reciter 1. *)
Lemma playFrom_and_loadAndPlay_skip_chapter_5 :
  count isFetch
    (trace (run defaultReciter offline (loadAndPlayAudioFile 5)
              chapter5Loaded)) = 0%nat /\
  count isFetch
    (trace (run defaultReciter offline
              (playFrom (PlayFromInput.Build 2500%float 5 1))
              chapter5Loaded)) = 0%nat.
Proof.
  split.
  - exact (proj1 (playFrom_skips_only_where_loadAndPlay_skips defaultReciter
                    offline offline (PlayFromInput.Build 2500%float 5 1)
                    chapter5Loaded) eq_refl).
  - exact (proj2 (playFrom_skips_only_where_loadAndPlay_skips defaultReciter
                    offline offline (PlayFromInput.Build 2500%float 5 1)
                    chapter5Loaded) eq_refl eq_refl).
Defined.

(** X11: chapter 5 is loaded for reciter 1 and asked for reciter 2; it is
    fetched for reciter 1, twice. *)
Lemma playFrom_for_reciter_2_fetches_for_reciter_1 :
  In (EvFetch 1 5)
     (trace (run defaultReciter library
               (playFrom (PlayFromInput.Build 2500%float 5 2))
               chapter5Loaded)) /\
  In (EvFetch 1 5)
     (trace (run defaultReciter library
               (playFrom (PlayFromInput.Build 2500%float 5 2))
               (final (run defaultReciter library
                         (playFrom (PlayFromInput.Build 2500%float 5 2))
                         chapter5Loaded)))).
Proof.
  apply (playFrom_fetches_for_the_current_reciter defaultReciter library
           library (PlayFromInput.Build 2500%float 5 2) chapter5Loaded).
  simpl. discriminate.
Defined.

(** X12 from the initial state, with chapter 2. *)
Lemma playFrom_2_after_loadAndPlay_2 :
  trace (run defaultReciter offline
           (playFrom (PlayFromInput.Build 2500%float 2 7))
           (final (run defaultReciter library (loadAndPlayAudioFile 2)
                     (initialRootState defaultReciter)))) =
    [ EvTrigger (triggerSetCurrentTime 2.5%float);
      EvTrigger triggerPlayAudio ].
Proof.
  exact (playFrom_after_loadAndPlay_does_not_fetch defaultReciter library
           offline (initialRootState defaultReciter) 2 af2 2500%float
           eq_refl eq_refl eq_refl).
Defined.

(** X13: [loadAndPlay 2] without network, and then with it. *)
Lemma loadAndPlay_2_retried :
  In (EvFetch 7 2)
     (trace (run defaultReciter library (thunkOf (loadAndPlay 2))
               (final (run defaultReciter offline (thunkOf (loadAndPlay 2))
                         (initialRootState defaultReciter))))).
Proof.
  apply (failed_call_can_be_retried defaultReciter offline library
           (loadAndPlay 2) (initialRootState defaultReciter) 7 2).
  - simpl. auto.
  - reflexivity.
Defined.

(** X14 at the second scenario without network. *)
Lemma reciter_2_with_the_file_of_reciter_1 :
  selectReciter
    (final (run defaultReciter offline (setReciterAndPauseAudio reciter2)
              chapter5Loaded)) = reciter2 /\
  selectAudioFile
    (final (run defaultReciter offline (setReciterAndPauseAudio reciter2)
              chapter5Loaded)) = Some af5 /\
  trace (run defaultReciter library (loadAndPlayAudioFile 5)
           (final (run defaultReciter offline
                     (setReciterAndPauseAudio reciter2) chapter5Loaded)))
    = [EvTrigger triggerPlayAudio].
Proof.
  exact (failed_reciter_switch_plays_old_file defaultReciter offline library
           chapter5Loaded reciter2 af5 eq_refl eq_refl).
Defined.

(** X15: the reciter is switched on the initial state, where there is no
    audio file; the widget is marked open. *)
Lemma widget_open_after_failed_switch :
  In styles.audioPlayerOpen
     (FeedbackWidget
        (final (run defaultReciter library
                  (thunkOf (setReciterAndPause reciter2))
                  (initialRootState defaultReciter)))).
Proof.
  apply (widget_open_after_any_dispatch defaultReciter library
           (setReciterAndPause reciter2) (initialRootState defaultReciter)).
  simpl. apply Nat.lt_0_succ.
Defined.

(** X16 and X17 after chapter 2 has been loaded. *)
Lemma Loading_after_chapter_2_has_arrived :
  exists m,
    afterInputs defaultReciter [Called (loadAndPlay 2); FetchResolved 0 af2]
      = Some m /\
    selectAudioFile (store m) = Some af2 /\
    selectAudioFileStatus (store m) <> Ready.
Proof.
  eexists. split; [reflexivity |]. split; [reflexivity |].
  apply (Ready_only_by_direct_dispatch defaultReciter).
  eapply (script_reachable defaultReciter (dispatching notReady)
            [Called (loadAndPlay 2); FetchResolved 0 af2]
            (boot defaultReciter)).
  - apply reach_boot.
  - simpl. repeat split.
  - reflexivity.
Defined.

Lemma not_playing_after_chapter_2_has_arrived :
  exists m,
    afterInputs defaultReciter [Called (loadAndPlay 2); FetchResolved 0 af2]
      = Some m /\
    log m =
      [ EvDispatch (setAudioStatus Loading); EvFetch 7 2;
        EvDispatch (setAudioFile (Some af2)); EvTrigger triggerPlayAudio ] /\
    selectIsPlaying (store m) = false.
Proof.
  eexists. split; [reflexivity |]. split; [reflexivity |].
  apply (flags_only_by_direct_dispatch defaultReciter).
  eapply (script_reachable defaultReciter (dispatching notAFlag)
            [Called (loadAndPlay 2); FetchResolved 0 af2]
            (boot defaultReciter)).
  - apply reach_boot.
  - simpl. repeat split.
  - reflexivity.
Defined.

(** X18: chapter 2 is asked for, the file is reset, and the fetch resolves:
    the file is stored all the same. *)
Lemma late_file_is_stored :
  exists m m',
    afterInputs defaultReciter
      [Called (loadAndPlay 2); Dispatched resetAudioFile] = Some m /\
    react defaultReciter m (FetchResolved 0 af2) = Some m' /\
    store m' = rootReducer defaultReciter (store m) (setAudioFile (Some af2)) /\
    parked m' = [].
Proof.
  eexists. eexists. split; [reflexivity |]. split; [reflexivity |].
  match goal with
  | |- store ?m' = rootReducer _ (store ?m) _ /\ _ =>
      destruct (proj1 (settled_fetch_stores_its_file_unchecked defaultReciter
                         m m' 0
                         (script_reachable defaultReciter anything
                            [Called (loadAndPlay 2);
                             Dispatched resetAudioFile]
                            (boot defaultReciter) m
                            (reach_boot defaultReciter anything)
                            (conj I (conj I I)) eq_refl))
                  af2 eq_refl) as (Hstore & _ & _)
  end.
  split; [exact Hstore | reflexivity].
Defined.

(** X19 from the start: chapter 2, then chapter 5, and the file of chapter
    5 arrives first. *)
Lemma chapter_2_wins_over_chapter_5 :
  exists m',
    script defaultReciter (boot defaultReciter)
      [ Called (loadAndPlay 2); Called (loadAndPlay 5);
        FetchResolved 1 af5; FetchResolved 0 af2 ] = Some m' /\
    selectAudioFile (store m') = Some af2.
Proof.
  destruct (out_of_order_fetches_keep_the_first_request defaultReciter
              (boot defaultReciter) 2 5 af2 af5
              eq_refl eq_refl eq_refl eq_refl)
    as (m' & Hscript & Hfile & _).
  exists m'. split; [exact Hscript | exact Hfile].
Defined.

(** X20 at the second scenario's store, after [setReciter reciter2]. *)
Lemma playFrom_5_for_reciter_2_plays_the_file_of_reciter_1 :
  trace
    (run defaultReciter offline
       (playFrom (PlayFromInput.Build 2500%float 5 2))
       (rootReducer defaultReciter chapter5Loaded (setReciter reciter2))) =
    [ EvTrigger (triggerSetCurrentTime 2.5%float);
      EvTrigger triggerPlayAudio ] /\
  selectAudioFile
    (final
       (run defaultReciter offline
          (playFrom (PlayFromInput.Build 2500%float 5 2))
          (rootReducer defaultReciter chapter5Loaded (setReciter reciter2))))
    = Some af5.
Proof.
  pose proof (playFrom_trusts_the_reciter_of_the_store defaultReciter
                offline chapter5Loaded af5 5 reciter2 2500%float
                eq_refl eq_refl) as Hrun.
  change (Reciter.id reciter2) with 2 in Hrun. rewrite Hrun.
  split; reflexivity.
Defined.
